(** * backend/app.py: the items service, embedded and verified

    A shallow embedding of [backend/app.py], a Flask application that
    exposes CRUD operations over one PostgreSQL table, [items].

    The Python code is effectful: it opens connections, sleeps, prints,
    runs SQL and raises exceptions.  It is embedded in a state-and-exception
    monad [M] over a [World] that holds everything outside the process (the
    store, the outcome of every connection attempt, the host name, the
    environment) and everything the process leaves behind (the connections
    it holds open, the trace of its effects, its standard output).

    What the libraries do is not in the source file, so it is fixed here
    from their documentation and kept apart from the handlers:
    - a Python [str] is a Rocq [string], one [ascii] per character;
    - [psycopg2.connect] answers as the world's [net] says, attempt by
      attempt;
    - a connection works on its own snapshot of the store, which [commit]
      installs; a statement that raises leaves the snapshot as it was;
    - a connection object that no variable refers to any more is
      finalized, as CPython does when a function returns: the driver's
      destructor closes the connection if [close] has not been called;
    - the store recognises the statements this program can send, by their
      text, and rejects any other text as a syntax error;
    - how a bound parameter that is neither a string nor [None] is turned
      into text is left to the world ([coerce]);
    - [request.get_json()] raises [BadRequest] on a body it cannot parse;
      what it does without the JSON content type changed between
      versions of Werkzeug and is left to the world ([flask_non_json]).

    The definitions come first, the route handlers in the order of the
    source file; the properties follow. *)

From Stdlib Require Import ZArith List String Ascii Bool Lia.
From Stdlib Require Import Sorted Permutation.
Import ListNotations.
Open Scope string_scope.
Open Scope Z_scope.

#[local] Set Warnings "-register-all".

(** ** Values *)

(** A decoded JSON document, as Python sees it after [json.loads]:
    [None], [bool], [int], [float], [str], [list], [dict].  A float is
    kept as mantissa and decimal exponent. *)
Inductive json : Type :=
| JNull
| JBool (b : bool)
| JInt (n : Z)
| JFloat (m e : Z)
| JStr (s : string)
| JArr (l : list json)
| JObj (kv : list (string * json)).

(** Python truthiness, as used by [if not data] and [if not name]. *)
Definition truthy (v : json) : bool :=
  match v with
  | JNull => false
  | JBool b => b
  | JInt n => negb (n =? 0)
  | JFloat m _ => negb (m =? 0)
  | JStr s => negb (String.eqb s "")
  | JArr l => match l with [] => false | _ => true end
  | JObj kv => match kv with [] => false | _ => true end
  end.

(** [type(v).__name__] *)
Definition py_type_name (v : json) : string :=
  match v with
  | JNull => "NoneType"
  | JBool _ => "bool"
  | JInt _ => "int"
  | JFloat _ _ => "float"
  | JStr _ => "str"
  | JArr _ => "list"
  | JObj _ => "dict"
  end.

Fixpoint assoc (k : string) (kv : list (string * json)) : option json :=
  match kv with
  | [] => None
  | (k', v) :: rest => if String.eqb k k' then Some v else assoc k rest
  end.

Definition is_None (v : json) : bool :=
  match v with JNull => true | _ => false end.

(** ** Exceptions *)

Inductive exn_class : Type :=
| OperationalError      (* psycopg2.OperationalError *)
| ProgrammingError      (* psycopg2.ProgrammingError *)
| DataError             (* psycopg2.DataError *)
| IntegrityError        (* psycopg2.IntegrityError *)
| ValueError
| AttributeError
| BadRequest            (* werkzeug.exceptions.BadRequest *)
| UnsupportedMediaType  (* werkzeug.exceptions.UnsupportedMediaType *)
| InterfaceError        (* psycopg2.InterfaceError *)
| PlainException.       (* Exception itself *)

Record exn : Type := mkExn { cls : exn_class; msg : string }.

(** [str(e)] *)
Definition str (e : exn) : string := msg e.

(** [except OperationalError] *)
Definition is_OperationalError (e : exn) : bool :=
  match cls e with OperationalError => true | _ => false end.

(** [except Exception]: every class above derives from [Exception]. *)
Definition is_Exception (e : exn) : bool := true.

(** ** The store *)

Record Row : Type := mkRow {
  id : Z;
  name : string;
  description : option string   (* [None] is SQL NULL *)
}.

(** The [items] table with the sequence behind its [SERIAL] column. *)
Record Table : Type := mkTable {
  rows : list Row;              (* in physical order *)
  last_value : Z                (* of [items_id_seq] *)
}.

(** [None]: the relation does not exist. *)
Definition DB : Type := option Table.

Inductive db_error : Type :=
| SyntaxError
| ParameterMismatch
| UndefinedTable
| DuplicateTable
| CannotAdapt
| NulInString
| StringTooLong
| NotNullViolation
| UniqueViolation.

Definition db_error_class (e : db_error) : exn_class :=
  match e with
  | SyntaxError => ProgrammingError
  | ParameterMismatch => ProgrammingError
  | UndefinedTable => ProgrammingError
  | DuplicateTable => ProgrammingError
  | CannotAdapt => ProgrammingError
  | NulInString => ValueError
  | StringTooLong => DataError
  | NotNullViolation => IntegrityError
  | UniqueViolation => IntegrityError
  end.

(** One row of a result set: column names with their values. *)
Definition ResultRow : Type := list (string * json).

Record ResultSet : Type := mkResultSet {
  rs_rows : list ResultRow;
  rs_rowcount : Z
}.

Definition row_record (r : Row) : ResultRow :=
  [("id", JInt (id r));
   ("name", JStr (name r));
   ("description", match description r with
                   | Some d => JStr d
                   | None => JNull
                   end)].

(** *** The statements of the program, as it writes them *)

Definition sql_create_if_not_exists : string :=
"
            CREATE TABLE IF NOT EXISTS items (
                id SERIAL PRIMARY KEY,
                name VARCHAR(255) NOT NULL,
                description TEXT
            )
        ".

Definition sql_create : string :=
"
            CREATE TABLE items (
                id SERIAL PRIMARY KEY,
                name VARCHAR(255) NOT NULL,
                description TEXT
            )
        ".

Definition sql_drop : string := "DROP TABLE IF EXISTS items".

Definition sql_select_1 : string := "SELECT 1".

Definition sql_select_all : string := "SELECT * FROM items ORDER BY id".

Definition sql_select_by_id : string := "SELECT * FROM items WHERE id = %s".

Definition sql_insert : string :=
  "INSERT INTO items (name, description) VALUES (%s, %s) RETURNING id, name, description".

Definition sql_delete : string := "DELETE FROM items WHERE id = %s".

Definition sql_update_name : string :=
  "UPDATE items SET name = %s WHERE id = %s RETURNING *".

Definition sql_update_description : string :=
  "UPDATE items SET description = %s WHERE id = %s RETURNING *".

Definition sql_update_both : string :=
  "UPDATE items SET name = %s, description = %s WHERE id = %s RETURNING *".

(** *** What the store does with them *)

(** [ORDER BY id]: insertion sort on the key. *)
Fixpoint insert_by_id (r : Row) (l : list Row) : list Row :=
  match l with
  | [] => [r]
  | r' :: l' => if id r <=? id r' then r :: r' :: l'
                else r' :: insert_by_id r l'
  end.

Fixpoint order_by_id (l : list Row) : list Row :=
  match l with
  | [] => []
  | r :: l' => insert_by_id r (order_by_id l')
  end.

Definition has_nul (s : string) : bool :=
  existsb (fun c => Ascii.eqb c zero) (list_ascii_of_string s).

(** A parameter as the driver binds it; [inr None] is NULL. *)
Definition adapt (co : json -> option string) (v : json)
  : db_error + option string :=
  match v with
  | JNull => inr None
  | JStr s => if has_nul s then inl NulInString else inr (Some s)
  | _ => match co v with
         | Some s => inr (Some s)
         | None => inl CannotAdapt
         end
  end.

Definition all_spaces (s : string) : bool :=
  forallb (fun c => Ascii.eqb c " "%char) (list_ascii_of_string s).

(** [VARCHAR(255)]: longer text is refused, unless only spaces are cut. *)
Definition varchar255 (s : string) : db_error + string :=
  if (String.length s <=? 255)%nat then inr s
  else if all_spaces (substring 255 (String.length s - 255) s)
       then inr (substring 0 255 s)
       else inl StringTooLong.

(** A value for the [name] column, which is [NOT NULL]. *)
Definition name_value (v : option string) : db_error + option string :=
  match v with
  | None => inr None
  | Some s => match varchar255 s with
              | inl e => inl e
              | inr s' => inr (Some s')
              end
  end.

Definition has_id (n : Z) (r : Row) : bool := id r =? n.

(** [UPDATE items SET ... WHERE id = n]: the columns to set come as
    options; a NULL name is refused where a row would take it. *)
Definition set_row (nm : option (option string)) (d : option (option string))
           (r : Row) : db_error + Row :=
  match nm with
  | Some None => inl NotNullViolation
  | Some (Some s) =>
      inr (mkRow (id r) s (match d with Some d' => d' | None => description r end))
  | None =>
      inr (mkRow (id r) (name r)
                 (match d with Some d' => d' | None => description r end))
  end.

Fixpoint update_rows (nm : option (option string)) (d : option (option string))
         (n : Z) (l : list Row) : db_error + (list Row * list Row) :=
  match l with
  | [] => inr ([], [])
  | r :: l' =>
      match update_rows nm d n l' with
      | inl e => inl e
      | inr (kept, hit) =>
          if has_id n r then
            match set_row nm d r with
            | inl e => inl e
            | inr r' => inr (r' :: kept, r' :: hit)
            end
          else inr (r :: kept, hit)
      end
  end.

(** [UPDATE items SET ... WHERE id = i], the values already bound. *)
Definition run_update (nm : option (option string))
           (d : option (option string)) (i : json) (t : Table)
  : db_error + (DB * ResultSet) :=
  match i with
  | JInt n =>
      match match nm with
            | None => inr None
            | Some a => match name_value a with
                        | inl e => inl e
                        | inr a' => inr (Some a')
                        end
            end with
      | inl e => inl e
      | inr nm' =>
          match update_rows nm' d n (rows t) with
          | inl e => inl e
          | inr (kept, hit) =>
              inr (Some (mkTable kept (last_value t)),
                   mkResultSet (map row_record hit) (Z.of_nat (List.length hit)))
          end
      end
  | _ => inl ParameterMismatch
  end.

(** [INSERT INTO items (name, description) VALUES (a, d')], the values
    already bound. *)
Definition run_insert (a d' : option string) (t : Table)
  : db_error + (DB * ResultSet) :=
  match name_value a with
  | inl e => inl e
  | inr None => inl NotNullViolation
  | inr (Some s) =>
      let n := last_value t + 1 in
      if existsb (has_id n) (rows t) then inl UniqueViolation
      else
        let r := mkRow n s d' in
        inr (Some (mkTable (rows t ++ [r]) n),
             mkResultSet [row_record r] 1)
  end.

(** The driver binds a parameter on the client, before anything is sent
    to the server: what it cannot adapt it refuses whatever the state of
    the store. *)
Definition bound {A} (co : json -> option string) (v : json)
           (k : option string -> db_error + A) : db_error + A :=
  match adapt co v with
  | inl e => inl e
  | inr a => k a
  end.

Definition need_table (d : DB) (k : Table -> db_error + (DB * ResultSet))
  : db_error + (DB * ResultSet) :=
  match d with
  | None => inl UndefinedTable
  | Some t => k t
  end.

(** One statement against a snapshot: the new snapshot and the result
    set, or the error.  The parameters are bound first, on the client;
    the server then looks for the table and runs the statement. *)
Definition run (co : json -> option string) (stmt : string)
           (params : list json) (d : DB) : db_error + (DB * ResultSet) :=
  if String.eqb stmt sql_create_if_not_exists then
    match params with
    | [] => inr (match d with
                 | None => Some (mkTable [] 0)
                 | Some t => Some t
                 end, mkResultSet [] (-1))
    | _ => inl ParameterMismatch
    end
  else if String.eqb stmt sql_create then
    match params with
    | [] => match d with
            | None => inr (Some (mkTable [] 0), mkResultSet [] (-1))
            | Some _ => inl DuplicateTable
            end
    | _ => inl ParameterMismatch
    end
  else if String.eqb stmt sql_drop then
    match params with
    | [] => inr (None, mkResultSet [] (-1))
    | _ => inl ParameterMismatch
    end
  else if String.eqb stmt sql_select_1 then
    match params with
    | [] => inr (d, mkResultSet [[("?column?", JInt 1)]] 1)
    | _ => inl ParameterMismatch
    end
  else if String.eqb stmt sql_select_all then
    match params with
    | [] => need_table d (fun t =>
              let l := order_by_id (rows t) in
              inr (d, mkResultSet (map row_record l) (Z.of_nat (List.length l))))
    | _ => inl ParameterMismatch
    end
  else if String.eqb stmt sql_select_by_id then
    match params with
    | [JInt n] => need_table d (fun t =>
              let l := filter (has_id n) (rows t) in
              inr (d, mkResultSet (map row_record l) (Z.of_nat (List.length l))))
    | _ => inl ParameterMismatch
    end
  else if String.eqb stmt sql_insert then
    match params with
    | [nm; de] =>
        bound co nm (fun a =>
        bound co de (fun d' =>
        need_table d (run_insert a d')))
    | _ => inl ParameterMismatch
    end
  else if String.eqb stmt sql_delete then
    match params with
    | [JInt n] => need_table d (fun t =>
              let gone := filter (has_id n) (rows t) in
              inr (Some (mkTable (filter (fun r => negb (has_id n r)) (rows t))
                                 (last_value t)),
                   mkResultSet [] (Z.of_nat (List.length gone))))
    | _ => inl ParameterMismatch
    end
  else if String.eqb stmt sql_update_name then
    match params with
    | [nm; i] =>
        bound co nm (fun a =>
        need_table d (run_update (Some a) None i))
    | _ => inl ParameterMismatch
    end
  else if String.eqb stmt sql_update_description then
    match params with
    | [de; i] =>
        bound co de (fun d' =>
        need_table d (run_update None (Some d') i))
    | _ => inl ParameterMismatch
    end
  else if String.eqb stmt sql_update_both then
    match params with
    | [nm; de; i] =>
        bound co nm (fun a =>
        bound co de (fun d' =>
        need_table d (run_update (Some a) (Some d') i)))
    | _ => inl ParameterMismatch
    end
  else inl SyntaxError.

(** ** The world *)

(** What one call of [psycopg2.connect] comes to. *)
Inductive ConnOutcome : Type :=
| ConnOk
| ConnRaises (e : exn).

(** What [request.get_json()] does when the content type is not JSON:
    it returns [None] before Werkzeug 2.1, raises 400 from 2.1 and 415
    from 2.3. *)
Inductive non_json_policy : Type :=
| ReturnNone
| RaiseBadRequest
| RaiseUnsupportedMediaType.

Record ConnParams : Type := mkConnParams {
  p_host : string;
  p_database : string;
  p_user : string;
  p_password : string;
  p_connect_timeout : Z
}.

Inductive Event : Type :=
| EvConnect (p : ConnParams) (o : ConnOutcome)
| EvSleep (seconds : Z)
| EvExecute (c : nat) (stmt : string) (params : list json)
| EvCommit (c : nat)
| EvClose (c : nat)                (* [conn.close()] is called *)
| EvFinalize (c : nat)             (* the destructor closes it *)
| EvListen (host : string) (port : Z).

Record World : Type := mkWorld {
  (* outside the process, fixed *)
  environ : list (string * string);
  hostname : string;
  net : nat -> ConnOutcome;
  coerce : json -> option string;
  pg_text : db_error -> string;
  flask_non_json : non_json_policy;
  (* outside the process, changing *)
  db : DB;
  (* left behind by the process *)
  attempts : nat;                   (* calls of [psycopg2.connect] so far *)
  open_conns : list (nat * DB);     (* open connections, with their snapshots *)
  trace : list Event;
  stdout : list string
}.

Definition with_db (d : DB) (w : World) : World :=
  mkWorld (environ w) (hostname w) (net w) (coerce w) (pg_text w)
          (flask_non_json w) d (attempts w) (open_conns w) (trace w)
          (stdout w).

Definition with_net (n : nat -> ConnOutcome) (w : World) : World :=
  mkWorld (environ w) (hostname w) n (coerce w) (pg_text w)
          (flask_non_json w) (db w) (attempts w) (open_conns w) (trace w)
          (stdout w).

Definition with_attempts (n : nat) (w : World) : World :=
  mkWorld (environ w) (hostname w) (net w) (coerce w) (pg_text w)
          (flask_non_json w) (db w) n (open_conns w) (trace w) (stdout w).

Definition with_open (o : list (nat * DB)) (w : World) : World :=
  mkWorld (environ w) (hostname w) (net w) (coerce w) (pg_text w)
          (flask_non_json w) (db w) (attempts w) o (trace w) (stdout w).

Definition emit (e : Event) (w : World) : World :=
  mkWorld (environ w) (hostname w) (net w) (coerce w) (pg_text w)
          (flask_non_json w) (db w) (attempts w) (open_conns w)
          (trace w ++ [e]) (stdout w).

Definition put_line (s : string) (w : World) : World :=
  mkWorld (environ w) (hostname w) (net w) (coerce w) (pg_text w)
          (flask_non_json w) (db w) (attempts w) (open_conns w) (trace w)
          (stdout w ++ [s]).

(** ** The monad *)

Inductive Result (A : Type) : Type :=
| Ok (a : A)
| Raise (e : exn).
Arguments Ok {A} a.
Arguments Raise {A} e.

Definition M (A : Type) : Type := World -> Result A * World.

Definition ret {A} (a : A) : M A := fun w => (Ok a, w).

Definition raise {A} (e : exn) : M A := fun w => (Raise e, w).

Definition bind {A B} (m : M A) (f : A -> M B) : M B :=
  fun w =>
    match m w with
    | (Ok a, w') => f a w'
    | (Raise e, w') => (Raise e, w')
    end.

(** [try: m  except <catches> as e: h e] *)
Definition try_except {A} (m : M A) (catches : exn -> bool)
           (h : exn -> M A) : M A :=
  fun w =>
    match m w with
    | (Ok a, w') => (Ok a, w')
    | (Raise e, w') => if catches e then h e w' else (Raise e, w')
    end.

Definition effect (f : World -> World) : M unit := fun w => (Ok tt, f w).

Definition ask {A} (f : World -> A) : M A := fun w => (Ok (f w), w).

Notation "x <- m ;; k" := (bind m (fun x => k))
  (at level 61, m at next level, right associativity).
Notation "m ;;; k" := (bind m (fun _ => k))
  (at level 61, right associativity).

(** ** Library calls *)

Definition print (s : string) : M unit := effect (put_line s).

Definition time_sleep (seconds : Z) : M unit := effect (emit (EvSleep seconds)).

Fixpoint lookup_env (k : string) (e : list (string * string)) : option string :=
  match e with
  | [] => None
  | (k', v) :: rest => if String.eqb k k' then Some v else lookup_env k rest
  end.

(** [os.environ.get(key, default)] *)
Definition os_environ_get (key default : string) : M string :=
  ask (fun w => match lookup_env key (environ w) with
                | Some v => v
                | None => default
                end).

Definition socket_gethostname : M string := ask hostname.

(** A connection object is the number of the attempt that opened it. *)
Definition Conn : Type := nat.

(** [psycopg2.connect(...)]: the world decides. *)
Definition psycopg2_connect (p : ConnParams) : M Conn :=
  fun w =>
    let n := attempts w in
    let o := net w n in
    let w1 := emit (EvConnect p o) (with_attempts (S n) w) in
    match o with
    | ConnOk => (Ok n, with_open ((n, db w1) :: open_conns w1) w1)
    | ConnRaises e => (Raise e, w1)
    end.

Fixpoint snapshot (c : Conn) (o : list (nat * DB)) : option DB :=
  match o with
  | [] => None
  | (c', d) :: rest => if Nat.eqb c c' then Some d else snapshot c rest
  end.

Fixpoint set_snapshot (c : Conn) (d : DB) (o : list (nat * DB))
  : list (nat * DB) :=
  match o with
  | [] => []
  | (c', d') :: rest =>
      if Nat.eqb c c' then (c', d) :: rest
      else (c', d') :: set_snapshot c d rest
  end.

Definition drop_conn (c : Conn) (o : list (nat * DB)) : list (nat * DB) :=
  filter (fun e => negb (Nat.eqb c (fst e))) o.

Definition connection_closed : exn :=
  mkExn InterfaceError "connection already closed".

Inductive cursor_factory : Type := PlainCursor | RealDictCursor.

Record Cursor : Type := mkCursor {
  cur_conn : Conn;
  cur_factory : cursor_factory;
  cur_rows : list ResultRow;
  rowcount : Z
}.

(** [conn.cursor(cursor_factory=...)] *)
Definition conn_cursor (c : Conn) (f : cursor_factory) : M Cursor :=
  fun w =>
    match snapshot c (open_conns w) with
    | Some _ => (Ok (mkCursor c f [] (-1)), w)
    | None => (Raise connection_closed, w)
    end.

(** [cur.execute(stmt, params)]: the cursor afterwards. *)
Definition cur_execute (cur : Cursor) (stmt : string) (params : list json)
  : M Cursor :=
  fun w =>
    let c := cur_conn cur in
    match snapshot c (open_conns w) with
    | None => (Raise connection_closed, w)
    | Some d =>
        let w1 := emit (EvExecute c stmt params) w in
        match run (coerce w) stmt params d with
        | inl e => (Raise (mkExn (db_error_class e) (pg_text w e)), w1)
        | inr (d', rs) =>
            (Ok (mkCursor c (cur_factory cur) (rs_rows rs) (rs_rowcount rs)),
             with_open (set_snapshot c d' (open_conns w1)) w1)
        end
    end.

(** A fetched row as the cursor's factory builds it: a dict, or a tuple. *)
Definition fetched (f : cursor_factory) (r : ResultRow) : json :=
  match f with
  | RealDictCursor => JObj r
  | PlainCursor => JArr (map snd r)
  end.

(** [cur.fetchall()] *)
Definition fetchall (cur : Cursor) : json :=
  JArr (map (fetched (cur_factory cur)) (cur_rows cur)).

(** [cur.fetchone()]: the first row, or [None]. *)
Definition fetchone (cur : Cursor) : json :=
  match cur_rows cur with
  | [] => JNull
  | r :: _ => fetched (cur_factory cur) r
  end.

(** [cur.close()] *)
Definition cur_close (cur : Cursor) : M unit := ret tt.

(** [conn.commit()]: the snapshot becomes the store. *)
Definition conn_commit (c : Conn) : M unit :=
  fun w =>
    match snapshot c (open_conns w) with
    | None => (Raise connection_closed, w)
    | Some d => (Ok tt, with_db d (emit (EvCommit c) w))
    end.

(** [conn.close()] *)
Definition conn_close (c : Conn) : M unit :=
  effect (fun w => with_open (drop_conn c (open_conns w)) (emit (EvClose c) w)).

(** *** Leaving a function *)

(** The connection objects made since a function was entered: the
    attempts that have succeeded since. *)
Definition made_since (entry w : World) : list Conn :=
  filter (fun c => match net entry c with
                   | ConnOk => true
                   | ConnRaises _ => false
                   end)
         (seq (attempts entry) (attempts w - attempts entry)).

(** The destructor of a connection object: it closes the connection if
    nothing has closed it yet. *)
Definition finalize (c : Conn) (w : World) : World :=
  match snapshot c (open_conns w) with
  | Some _ => with_open (drop_conn c (open_conns w)) (emit (EvFinalize c) w)
  | None => w
  end.

Definition release_locals (entry w : World) : World :=
  fold_left (fun w0 c => finalize c w0) (made_since entry w) w.

(** [def f(): body], for the functions that keep the connection they
    make in their local variables [conn] and [cur] and nowhere else.
    When such a function returns, from its body or from an [except]
    clause alike, its locals are released and the connection object is
    finalized.  An exception that leaves the function keeps the frame,
    and so the locals, alive in its traceback. *)
Definition py_def {A} (body : M A) : M A :=
  fun w =>
    match body w with
    | (Ok a, w') => (Ok a, release_locals w w')
    | (Raise e, w') => (Raise e, w')
    end.

(** Decimal text of a natural number, for the f-string. *)
Definition digit (n : nat) : string :=
  String (ascii_of_nat (48 + n)) EmptyString.

Fixpoint decimal_aux (fuel n : nat) (acc : string) : string :=
  match fuel with
  | O => acc
  | S f =>
      let acc' := (digit (Nat.modulo n 10) ++ acc)%string in
      match Nat.div n 10 with
      | O => acc'
      | q => decimal_aux f q acc'
      end
  end.

Definition decimal (n : nat) : string := decimal_aux (S n) n "".

(** ** [get_db_connection] (lines 11-27) *)

(** The [while retries < max_retries] loop; [remaining] is
    [max_retries - retries], on which it recurses. *)
Fixpoint connect_loop (remaining retries max_retries : nat) : M Conn :=
  match remaining with
  | O => raise (mkExn PlainException
                      "Failed to connect to database after 5 attempts")
  | S remaining' =>
      try_except
        (host <- os_environ_get "DB_HOST" "db" ;;
         database <- os_environ_get "DB_NAME" "mydb" ;;
         user <- os_environ_get "DB_USER" "myuser" ;;
         password <- os_environ_get "DB_PASSWORD" "mypassword" ;;
         psycopg2_connect (mkConnParams host database user password 5))
        is_OperationalError
        (fun e =>
           let retries := S retries in
           print ("Database connection failed. Attempt " ++ decimal retries
                  ++ " of " ++ decimal max_retries) ;;;
           time_sleep 3 ;;;
           connect_loop remaining' retries max_retries)
  end.

Definition get_db_connection (max_retries : nat) : M Conn :=
  connect_loop max_retries 0 max_retries.

(** The default argument, [max_retries=5]; every caller relies on it. *)
Definition default_retries : nat := 5.

(** ** Flask *)

(** An incoming request, as far as [get_json] looks at it: whether the
    content type is JSON, and what [json.loads] makes of the body
    ([None] when it raises, as it does on an empty body). *)
Record Request : Type := mkRequest {
  is_json : bool;
  json_loads : option json
}.

Record Response : Type := mkResponse {
  status : Z;
  body : json
}.

(** [jsonify(v)] *)
Definition jsonify (v : json) : Response := mkResponse 200 v.

(** [return r, code] and [make_response(r, code)] *)
Definition with_status (r : Response) (code : Z) : Response :=
  mkResponse code (body r).

Definition bad_request : exn :=
  mkExn BadRequest
        "400 Bad Request: The browser (or proxy) sent a request that this server could not understand.".

Definition unsupported_media_type : exn :=
  mkExn UnsupportedMediaType
        "415 Unsupported Media Type: Did not attempt to load JSON data because the request Content-Type was not 'application/json'.".

(** [request.get_json()] with its defaults, [force=False, silent=False]. *)
Definition request_get_json (req : Request) : M json :=
  fun w =>
    if is_json req then
      match json_loads req with
      | Some v => (Ok v, w)
      | None => (Raise bad_request, w)
      end
    else
      match flask_non_json w with
      | ReturnNone => (Ok JNull, w)
      | RaiseBadRequest => (Raise bad_request, w)
      | RaiseUnsupportedMediaType => (Raise unsupported_media_type, w)
      end.

(** [data.get(key, default)]; only a dict has the method. *)
Definition py_get (data : json) (key : string) (default : json) : M json :=
  match data with
  | JObj kv => ret (match assoc key kv with
                    | Some v => v
                    | None => default
                    end)
  | _ => raise (mkExn AttributeError
                      ("'" ++ py_type_name data
                       ++ "' object has no attribute 'get'"))
  end.

Definition error_body (m : string) : json := JObj [("error", JStr m)].

Definition message_body (m : string) : json := JObj [("message", JStr m)].

(** The handler every route ends with:
    [except Exception as e: return jsonify({'error': str(e)}), 500] *)
Definition internal_error (e : exn) : M Response :=
  ret (with_status (jsonify (error_body (str e))) 500).

(** ** [init_db] (lines 29-48) and start-up (lines 50-52, 218-220) *)

Definition init_db : M bool :=
  py_def
    (try_except
      (conn <- get_db_connection default_retries ;;
       cur <- conn_cursor conn PlainCursor ;;
       cur <- cur_execute cur sql_create_if_not_exists [] ;;
       conn_commit conn ;;;
       cur_close cur ;;;
       conn_close conn ;;;
       print "✅ Items table created or verified successfully" ;;;
       ret true)
      is_Exception
      (fun e =>
         print ("❌ Error creating table: " ++ str e) ;;;
         ret false)).





(** ** The routes *)

(** [GET /] (lines 54-61) *)
Definition index : M Response :=
  h <- socket_gethostname ;;
  ret (jsonify (JObj [("service", JStr "Backend API");
                      ("hostname", JStr h);
                      ("status", JStr "running");
                      ("database", JStr "connected")])).

(** [GET /health] (lines 63-83) *)
Definition health : M Response :=
  py_def
    (try_except
      (conn <- get_db_connection default_retries ;;
       cur <- conn_cursor conn PlainCursor ;;
       cur <- cur_execute cur sql_select_1 [] ;;
       cur_close cur ;;;
       conn_close conn ;;;
       h <- socket_gethostname ;;
       ret (jsonify (JObj [("status", JStr "healthy");
                           ("database", JStr "connected");
                           ("hostname", JStr h)])))
      is_Exception
      (fun e =>
         h <- socket_gethostname ;;
         ret (with_status
                (jsonify (JObj [("status", JStr "unhealthy");
                                ("database", JStr "disconnected");
                                ("error", JStr (str e));
                                ("hostname", JStr h)]))
                500))).

(** [GET /items] (lines 85-96) *)
Definition get_items : M Response :=
  py_def
    (try_except
      (conn <- get_db_connection default_retries ;;
       cur <- conn_cursor conn RealDictCursor ;;
       cur <- cur_execute cur sql_select_all [] ;;
       let items := fetchall cur in
       cur_close cur ;;;
       conn_close conn ;;;
       ret (jsonify items))
      is_Exception
      internal_error).

(** [POST /items] (lines 98-123) *)
Definition create_item (req : Request) : M Response :=
  py_def
    (try_except
      (data <- request_get_json req ;;
       if negb (truthy data) then
         ret (with_status (jsonify (error_body "Request must contain JSON")) 400)
       else
         name <- py_get data "name" JNull ;;
         if negb (truthy name) then
           ret (with_status (jsonify (error_body "Item name is required")) 400)
         else
           description <- py_get data "description" (JStr "") ;;
           conn <- get_db_connection default_retries ;;
           cur <- conn_cursor conn RealDictCursor ;;
           cur <- cur_execute cur sql_insert [name; description] ;;
           let item := fetchone cur in
           conn_commit conn ;;;
           cur_close cur ;;;
           conn_close conn ;;;
           ret (with_status (jsonify item) 201))
      is_Exception
      internal_error).

(** [GET /items/<int:id>] (lines 125-138) *)
Definition get_item (id : Z) : M Response :=
  py_def
    (try_except
      (conn <- get_db_connection default_retries ;;
       cur <- conn_cursor conn RealDictCursor ;;
       cur <- cur_execute cur sql_select_by_id [JInt id] ;;
       let item := fetchone cur in
       cur_close cur ;;;
       conn_close conn ;;;
       if truthy item then ret (jsonify item)
       else ret (with_status (jsonify (error_body "Item not found")) 404))
      is_Exception
      internal_error).

(** The statement and the parameters [update_item] builds (lines
    150-164): [updates] and [values] grow together, the id comes last.
    [None] when [updates] stays empty. *)
Fixpoint join (sep : string) (l : list string) : string :=
  match l with
  | [] => ""
  | [x] => x
  | x :: rest => x ++ sep ++ join sep rest
  end.

Definition update_clauses (name description : json)
  : list string * list json :=
  let updates : list string := [] in
  let values : list json := [] in
  let '(updates, values) :=
    if negb (is_None name)
    then ((updates ++ ["name = %s"])%list, (values ++ [name])%list)
    else (updates, values) in
  let '(updates, values) :=
    if negb (is_None description)
    then ((updates ++ ["description = %s"])%list,
          (values ++ [description])%list)
    else (updates, values) in
  (updates, values).

Definition update_query (updates : list string) : string :=
  "UPDATE items SET " ++ join ", " updates ++ " WHERE id = %s RETURNING *".

(** [PUT /items/<int:id>] (lines 140-178) *)
Definition update_item (req : Request) (id : Z) : M Response :=
  py_def
    (try_except
      (data <- request_get_json req ;;
       if negb (truthy data) then
         ret (with_status (jsonify (error_body "Request must contain JSON")) 400)
       else
         name <- py_get data "name" JNull ;;
         description <- py_get data "description" JNull ;;
         let '(updates, values) := update_clauses name description in
         match updates with
         | [] =>
             ret (with_status
                    (jsonify (error_body "At least one field to update is required"))
                    400)
         | _ =>
             let values := (values ++ [JInt id])%list in
             let query := update_query updates in
             conn <- get_db_connection default_retries ;;
             cur <- conn_cursor conn RealDictCursor ;;
             cur <- cur_execute cur query values ;;
             let updated_item := fetchone cur in
             conn_commit conn ;;;
             cur_close cur ;;;
             conn_close conn ;;;
             if truthy updated_item then ret (jsonify updated_item)
             else ret (with_status (jsonify (error_body "Item not found")) 404)
         end)
      is_Exception
      internal_error).

(** [DELETE /items/<int:id>] (lines 180-195) *)
Definition delete_item (id : Z) : M Response :=
  py_def
    (try_except
      (conn <- get_db_connection default_retries ;;
       cur <- conn_cursor conn PlainCursor ;;
       cur <- cur_execute cur sql_delete [JInt id] ;;
       conn_commit conn ;;;
       let rowcount := rowcount cur in
       cur_close cur ;;;
       conn_close conn ;;;
       if rowcount >? 0
       then ret (jsonify (message_body "Item deleted successfully"))
       else ret (with_status (jsonify (error_body "Item not found")) 404))
      is_Exception
      internal_error).

(** [POST /reset] (lines 197-216) *)
Definition reset_database : M Response :=
  py_def
    (try_except
      (conn <- get_db_connection default_retries ;;
       cur <- conn_cursor conn PlainCursor ;;
       cur <- cur_execute cur sql_drop [] ;;
       cur <- cur_execute cur sql_create [] ;;
       conn_commit conn ;;;
       cur_close cur ;;;
       conn_close conn ;;;
       ret (with_status (jsonify (message_body "Table reset successfully")) 200))
      is_Exception
      internal_error).

(** * Vocabulary of the properties *)

(** The arguments of [psycopg2.connect], read from the environment. *)
Definition conn_params (w : World) : ConnParams :=
  let get k d := match lookup_env k (environ w) with
                 | Some v => v
                 | None => d
                 end in
  mkConnParams (get "DB_HOST" "db") (get "DB_NAME" "mydb")
               (get "DB_USER" "myuser") (get "DB_PASSWORD" "mypassword") 5.

(** The world after one call of [psycopg2.connect]. *)
Definition attempted (w : World) : World :=
  emit (EvConnect (conn_params w) (net w (attempts w)))
       (with_attempts (S (attempts w)) w).

(** The world after a failed attempt has been reported and slept on. *)
Definition backed_off (retries max_retries : nat) (w : World) : World :=
  emit (EvSleep 3)
       (put_line ("Database connection failed. Attempt " ++ decimal retries
                  ++ " of " ++ decimal max_retries)
                 (attempted w)).

Definition opened (w : World) : World :=
  with_open ((attempts w, db w) :: open_conns w) (attempted w).

(** A failure the provider retries on. *)
Definition transient (o : ConnOutcome) : bool :=
  match o with
  | ConnOk => false
  | ConnRaises e => is_OperationalError e
  end.

(** What a call of the provider leaves untouched: everything outside the
    process. *)
Definition same_outside (w w' : World) : Prop :=
  environ w' = environ w /\ hostname w' = hostname w /\ net w' = net w /\
  coerce w' = coerce w /\ pg_text w' = pg_text w /\
  flask_non_json w' = flask_non_json w /\ db w' = db w.

(** The events of [k] failed attempts starting in [w]: each is followed
    by its sleep. *)
Definition failed_attempts (w : World) (k : nat) : list Event :=
  flat_map (fun j => [EvConnect (conn_params w) (net w (attempts w + j));
                      EvSleep 3])
           (seq 0 k).

Definition exhausted : exn :=
  mkExn PlainException "Failed to connect to database after 5 attempts".


(** Ascending order of ids. *)
Definition id_le (a b : Row) : Prop := id a <= id b.

(** A row as [jsonify] shows it. *)
Definition item_json (r : Row) : json := JObj (row_record r).

(** A sleep occurs only between two attempts when a connection attempt
    comes right after it. *)
Fixpoint sleeps_only_between (t : list Event) : bool :=
  match t with
  | [] => true
  | EvSleep _ :: rest =>
      match rest with
      | EvConnect _ _ :: _ => sleeps_only_between rest
      | _ => false
      end
  | _ :: rest => sleeps_only_between rest
  end.

(** The events a computation adds to the trace of the world it starts in. *)
Definition new_events {A} (m : M A) (w : World) : list Event :=
  skipn (List.length (trace w)) (trace (snd (m w))).

(** * Sample worlds *)

Definition refused : ConnOutcome :=
  ConnRaises (mkExn OperationalError "could not connect to server: Connection refused").

Definition database_down : nat -> ConnOutcome := fun _ => refused.

Definition database_up : nat -> ConnOutcome := fun _ => ConnOk.

(** Two refusals, then the server answers. *)
Definition database_late : nat -> ConnOutcome :=
  fun n => if (n <? 2)%nat then refused else ConnOk.

Definition sample_world (n : nat -> ConnOutcome) (d : DB) : World :=
  mkWorld [] "backend-1" n (fun _ => None) (fun _ => "database error")
          ReturnNone d 0 [] [] [].

(** Three rows, stored out of order. *)
Definition three_items : Table :=
  mkTable [mkRow 3 "pear" (Some "green"); mkRow 1 "apple" None;
           mkRow 2 "fig" (Some "")] 3.

(** Ids come from the sequence: none is beyond its last value, which is
    not negative. *)
Definition ids_from_sequence (t : Table) : Prop :=
  0 <= last_value t /\ forall r, In r (rows t) -> id r <= last_value t.

(** The statements in a trace, with their parameters. *)
Fixpoint statements (t : list Event) : list (string * list json) :=
  match t with
  | [] => []
  | EvExecute _ stmt params :: rest => (stmt, params) :: statements rest
  | _ :: rest => statements rest
  end.

(** The connections a trace closes. *)
Fixpoint closes (t : list Event) : list nat :=
  match t with
  | [] => []
  | EvClose c :: rest => c :: closes rest
  | _ :: rest => closes rest
  end.

(** [data.get(k)] on a dict. *)
Definition field (k : string) (kv : list (string * json)) : json :=
  match assoc k kv with
  | Some v => v
  | None => JNull
  end.

(** A field is supplied when [data.get(k) is not None]. *)
Definition supplied (k : string) (kv : list (string * json)) : bool :=
  negb (is_None (field k kv)).

(** The statement text as the specification words it: one assignment
    clause per supplied field, name before description, then the id
    predicate. *)
Definition spec_update_text (has_name has_description : bool) : string :=
  "UPDATE items SET "
  ++ join ", " ((if has_name then ["name = %s"] else [])
                ++ (if has_description then ["description = %s"] else []))%list
  ++ " WHERE id = %s RETURNING *".

(** The parameters bound to it: the supplied values in that order, then
    the id. *)
Definition spec_update_values (kv : list (string * json)) (i : Z) : list json :=
  ((if supplied "name" kv then [field "name" kv] else [])
   ++ (if supplied "description" kv then [field "description" kv] else [])
   ++ [JInt i])%list.

(** The columns an [UPDATE] sets, as options. *)
Definition supplied_field (k : string) (kv : list (string * json))
  : option json :=
  if supplied k kv then Some (field k kv) else None.

(** Binding a column that may not be supplied. *)
Definition bound_field {A} (co : json -> option string) (o : option json)
           (k : option (option string) -> db_error + A) : db_error + A :=
  match o with
  | None => k None
  | Some v => bound co v (fun a => k (Some a))
  end.

(** One column of the table, row by row. *)
Definition column {A} (f : Row -> A) (d : DB) : option (list A) :=
  match d with
  | Some t => Some (map f (rows t))
  | None => None
  end.

(** The round trip every writing route makes: connect, run one
    statement, fetch, commit, close, answer. *)
Definition write_round_trip (f : cursor_factory) (stmt : string)
           (params : list json) (finish : json -> M Response) : M Response :=
  py_def
    (try_except
      (conn <- get_db_connection default_retries ;;
       cur <- conn_cursor conn f ;;
       cur <- cur_execute cur stmt params ;;
       let item := fetchone cur in
       conn_commit conn ;;;
       cur_close cur ;;;
       conn_close conn ;;;
       finish item)
      is_Exception
      internal_error).

(** A row after [UPDATE] has set the columns given. *)
Definition updated (nm : option string) (d : option (option string))
           (r : Row) : Row :=
  mkRow (id r)
        (match nm with Some s => s | None => name r end)
        (match d with Some d' => d' | None => description r end).

(** The table after [UPDATE ... WHERE id = n] has set them. *)
Definition updated_table (nm : option string) (d : option (option string))
           (n : Z) (t : Table) : Table :=
  mkTable (map (fun r => if has_id n r then updated nm d r else r) (rows t))
          (last_value t).

(** A body that carries just the fields given. *)
Definition json_request (kv : list (string * json)) : Request :=
  mkRequest true (Some (JObj kv)).

(** How [get_item] and [update_item] end: the row, or 404. *)
Definition found_or_404 (item : json) : M Response :=
  if truthy item then ret (jsonify item)
  else ret (with_status (jsonify (error_body "Item not found")) 404).

Definition found_or_404_answer (item : json) : Response :=
  if truthy item then jsonify item
  else mkResponse 404 (error_body "Item not found").

(** How [create_item] ends: the row, with 201. *)
Definition created (item : json) : M Response :=
  ret (with_status (jsonify item) 201).

(** [n] times the character [c]. *)
Fixpoint replicate (n : nat) (c : ascii) : string :=
  match n with
  | O => EmptyString
  | S n' => String c (replicate n' c)
  end.

(** The status a handler answers with, if it answers. *)
Definition status_of (r : Result Response * World) : option Z :=
  match fst r with
  | Ok resp => Some (status resp)
  | Raise _ => None
  end.

(** The invariant of the store: a table, when there is one, has its ids
    from its sequence. *)
Definition store_ok (d : DB) : Prop :=
  match d with
  | Some t => ids_from_sequence t
  | None => True
  end.

(** * Vocabulary of the further properties *)

(** The round trip of a reading route: connect, run one statement,
    fetch, close, answer; nothing is committed. *)
Definition read_round_trip (f : cursor_factory) (stmt : string)
           (params : list json) (fetch : Cursor -> json)
           (finish : json -> M Response) (handler : exn -> M Response)
  : M Response :=
  py_def
    (try_except
      (conn <- get_db_connection default_retries ;;
       cur <- conn_cursor conn f ;;
       cur <- cur_execute cur stmt params ;;
       let item := fetch cur in
       cur_close cur ;;;
       conn_close conn ;;;
       finish item)
      is_Exception
      handler).

(** The two answers of [health]. *)
Definition healthy_body (h : string) : json :=
  JObj [("status", JStr "healthy");
        ("database", JStr "connected");
        ("hostname", JStr h)].

Definition unhealthy_body (e : exn) (h : string) : json :=
  JObj [("status", JStr "unhealthy");
        ("database", JStr "disconnected");
        ("error", JStr (str e));
        ("hostname", JStr h)].

Definition report_healthy (item : json) : M Response :=
  h <- socket_gethostname ;;
  ret (jsonify (healthy_body h)).

Definition report_unhealthy (e : exn) : M Response :=
  h <- socket_gethostname ;;
  ret (with_status (jsonify (unhealthy_body e h)) 500).

(** How [get_items] ends. *)
Definition listed (items : json) : M Response := ret (jsonify items).

(** The 500 of the catch-all clause. *)
Definition error_500 (e : exn) : Response :=
  mkResponse 500 (error_body (str e)).

(** The exception the driver raises for an error of the store. *)
Definition store_exn (w : World) (e : db_error) : exn :=
  mkExn (db_error_class e) (pg_text w e).

(** Every open connection was opened by an earlier attempt. *)
Definition conns_ok (w : World) : Prop :=
  forall c d, In (c, d) (open_conns w) -> (c < attempts w)%nat.

(** The table a fresh [CREATE TABLE] makes. *)
Definition empty_table : Table := mkTable [] 0.

(** The rows [DELETE ... WHERE id = n] leaves. *)
Definition without_id (n : Z) (t : Table) : Table :=
  mkTable (filter (fun r => negb (has_id n r)) (rows t)) (last_value t).

(** A string the store takes as it is for the [name] column. *)
Definition storable_name (s : string) : Prop :=
  has_nul s = false /\ (String.length s <= 255)%nat.

(** The first attempt raises something the provider does not retry on. *)
Definition rejected : ConnOutcome :=
  ConnRaises (mkExn ProgrammingError "invalid dsn: invalid connection option").

Definition database_rejecting : nat -> ConnOutcome := fun _ => rejected.

(** A handler answers, with one of the statuses listed. *)
Definition status_in (l : list Z) (r : Result Response * World) : Prop :=
  exists resp, fst r = Ok resp /\ In (status resp) l.

(** A decoded body that is not a dict. *)
Definition not_dict (v : json) : bool :=
  match v with
  | JObj _ => false
  | _ => true
  end.

(** The exception of [data.get] on such a body. *)
Definition no_get (v : json) : exn :=
  mkExn AttributeError
        ("'" ++ py_type_name v ++ "' object has no attribute 'get'").

(** The seconds a trace spends sleeping. *)
Fixpoint slept (t : list Event) : Z :=
  match t with
  | [] => 0
  | EvSleep s :: rest => s + slept rest
  | _ :: rest => slept rest
  end.

(** The description [create_item] sends to the store, for the bodies
    whose description is absent, [null] or a string: absent is the empty
    string, [null] is NULL. *)
Definition plain_description (kv : list (string * json))
  : option (option string) :=
  match assoc "description" kv with
  | None => Some (Some "")
  | Some JNull => Some None
  | Some (JStr d) => if has_nul d then None else Some (Some d)
  | Some _ => None
  end.

(** Strictly ascending order of ids. *)
Definition id_lt (a b : Row) : Prop := id a < id b.

(** Unless it answers 500, a handler leaves the open connections as it
    found them. *)
Definition leaves_no_connection (w : World) (r : Result Response * World)
  : Prop :=
  forall resp, fst r = Ok resp -> status resp <> 500 ->
               open_conns (snd r) = open_conns w.

(** The same rows as [three_items], stored in another order. *)
Definition three_items_shuffled : Table :=
  mkTable [mkRow 2 "fig" (Some ""); mkRow 3 "pear" (Some "green");
           mkRow 1 "apple" None] 3.

(** The first error the driver meets when it binds the parameters, if
    any. *)
Fixpoint binding_error (co : json -> option string) (vs : list json)
  : option db_error :=
  match vs with
  | [] => None
  | v :: rest => match adapt co v with
                 | inl e => Some e
                 | inr _ => binding_error co rest
                 end
  end.

(** The error of a statement on [items] when the table is missing: the
    driver's, if a parameter cannot be bound, else the store's. *)
Definition missing_table_error (co : json -> option string) (vs : list json)
  : db_error :=
  match binding_error co vs with
  | Some e => e
  | None => UndefinedTable
  end.

(** The values [update_item] binds, the id apart. *)
Definition supplied_values (kv : list (string * json)) : list json :=
  ((if supplied "name" kv then [field "name" kv] else [])
   ++ (if supplied "description" kv then [field "description" kv] else []))%list.
(** * Properties *)

(** ** Running the monad *)

Lemma bind_ok {A B} (m : M A) (f : A -> M B) w a w' :
  m w = (Ok a, w') -> bind m f w = f a w'.
Proof. intros H. unfold bind. now rewrite H. Qed.

Lemma bind_raise {A B} (m : M A) (f : A -> M B) w e w' :
  m w = (Raise e, w') -> bind m f w = (Raise e, w').
Proof. intros H. unfold bind. now rewrite H. Qed.

Lemma try_except_ok {A} (m : M A) c h w a w' :
  m w = (Ok a, w') -> try_except m c h w = (Ok a, w').
Proof. intros H. unfold try_except. now rewrite H. Qed.

Lemma try_except_raise {A} (m : M A) h w e w' :
  m w = (Raise e, w') -> try_except m is_Exception h w = h e w'.
Proof. intros H. unfold try_except. now rewrite H. Qed.

Lemma py_def_ok {A} (body : M A) w a w' :
  body w = (Ok a, w') -> py_def body w = (Ok a, release_locals w w').
Proof. intros H. unfold py_def. now rewrite H. Qed.

Lemma py_def_ext {A} (body body' : M A) w :
  body w = body' w -> py_def body w = py_def body' w.
Proof. intros H. unfold py_def. now rewrite H. Qed.

(** A function that has made no attempt has nothing to release. *)
Lemma release_locals_same entry w :
  attempts w = attempts entry -> release_locals entry w = w.
Proof.
  intros H. unfold release_locals, made_since. rewrite H, Nat.sub_diag.
  reflexivity.
Qed.

Lemma py_def_untouched {A} (body : M A) w a :
  body w = (Ok a, w) -> py_def body w = (Ok a, w).
Proof.
  intros H. rewrite (py_def_ok _ _ _ _ H). now rewrite release_locals_same.
Qed.

Lemma snapshot_dropped c l : snapshot c (drop_conn c l) = None.
Proof.
  induction l as [|[c' d] l IH]; [reflexivity|].
  unfold drop_conn in *. cbn [filter fst].
  destruct (Nat.eqb c c') eqn:E; cbn [negb]; [exact IH|].
  cbn [snapshot]. now rewrite E.
Qed.

Lemma drop_conn_twice c l : drop_conn c (drop_conn c l) = drop_conn c l.
Proof.
  induction l as [|[c' d] l IH]; [reflexivity|].
  unfold drop_conn in *. cbn [filter fst].
  destruct (Nat.eqb c c') eqn:E; cbn [negb]; [exact IH|].
  cbn [filter fst]. rewrite E. cbn [negb]. now rewrite IH.
Qed.

(** Steps through [request.get_json()] on a body that parses. *)
Ltac step_get_json Hj Hl :=
  unfold bind at 1; unfold request_get_json; rewrite Hj, Hl.

(** Steps through one [data.get(...)] on a dict. *)
Ltac step_get := unfold bind at 1; unfold py_get at 1; unfold ret at 1.

(** ** The connection provider *)

Lemma connect_loop_step n r mx w :
  connect_loop (S n) r mx w =
  match net w (attempts w) with
  | ConnOk => (Ok (attempts w), opened w)
  | ConnRaises e =>
      if is_OperationalError e
      then connect_loop n (S r) mx (backed_off (S r) mx w)
      else (Raise e, attempted w)
  end.
Proof.
  cbn [connect_loop]. unfold try_except, bind, os_environ_get, ask,
    psycopg2_connect, print, time_sleep, effect, opened, backed_off,
    attempted, conn_params.
  destruct (net w (attempts w)) as [|e]; [reflexivity|].
  destruct (is_OperationalError e); reflexivity.
Qed.

Lemma same_outside_refl w : same_outside w w.
Proof. repeat split. Qed.

Lemma same_outside_trans w1 w2 w3 :
  same_outside w1 w2 -> same_outside w2 w3 -> same_outside w1 w3.
Proof.
  unfold same_outside. intros H1 H2.
  decompose [and] H1. decompose [and] H2. repeat split; congruence.
Qed.

Lemma same_outside_backed_off r mx w : same_outside w (backed_off r mx w).
Proof. repeat split. Qed.

Lemma failed_attempts_S w r mx k :
  failed_attempts w (S k) =
  ([EvConnect (conn_params w) (net w (attempts w)); EvSleep 3]
   ++ failed_attempts (backed_off r mx w) k)%list.
Proof.
  unfold failed_attempts. cbn [seq flat_map].
  rewrite Nat.add_0_r. cbn [app]. do 2 f_equal.
  rewrite <- seq_shift, flat_map_concat_map, map_map,
    <- flat_map_concat_map.
  apply flat_map_ext. intros j.
  cbn [backed_off attempted emit put_line with_attempts attempts net].
  now rewrite Nat.add_succ_r.
Qed.

(** Every attempt fails: the loop runs out and raises, having slept after
    each attempt. *)
Lemma connect_loop_exhausted n : forall r mx w,
  (forall j, (j < n)%nat -> transient (net w (attempts w + j)) = true) ->
  exists w',
    connect_loop n r mx w = (Raise exhausted, w') /\
    trace w' = (trace w ++ failed_attempts w n)%list /\
    attempts w' = (attempts w + n)%nat /\
    open_conns w' = open_conns w /\
    same_outside w w'.
Proof.
  induction n as [|n IH]; intros r mx w Hall.
  - exists w. cbn. rewrite app_nil_r, Nat.add_0_r.
    repeat split; reflexivity.
  - rewrite connect_loop_step.
    pose proof (Hall 0%nat (Nat.lt_0_succ n)) as H0.
    rewrite Nat.add_0_r in H0.
    destruct (net w (attempts w)) as [|e] eqn:E; [discriminate|].
    cbn [transient] in H0. rewrite H0.
    destruct (IH (S r) mx (backed_off (S r) mx w)) as (w' & Hr & Ht & Ha & Ho & Hs).
    { intros j Hj. cbn [backed_off attempted emit put_line with_attempts
                        attempts net].
      replace (S (attempts w) + j)%nat with (attempts w + S j)%nat by lia.
      apply Hall. lia. }
    exists w'. split; [exact Hr|]. split.
    + rewrite Ht, (failed_attempts_S w (S r) mx n).
      cbn [backed_off attempted emit put_line with_attempts trace].
      rewrite E, <- !app_assoc. reflexivity.
    + split; [rewrite Ha; cbn; lia|].
      split; [rewrite Ho; reflexivity|].
      eapply same_outside_trans; [apply (same_outside_backed_off (S r) mx)|exact Hs].
Qed.

(** Some attempt succeeds: the loop returns the connection of the first
    one that does, having slept after each failure before it. *)
Lemma connect_loop_first_ok n : forall r mx w k,
  (k < n)%nat ->
  (forall j, (j < k)%nat -> transient (net w (attempts w + j)) = true) ->
  net w (attempts w + k) = ConnOk ->
  exists w',
    connect_loop n r mx w = (Ok (attempts w + k)%nat, w') /\
    trace w' = (trace w ++ failed_attempts w k
                ++ [EvConnect (conn_params w) ConnOk])%list /\
    attempts w' = S (attempts w + k) /\
    open_conns w' = ((attempts w + k)%nat, db w) :: open_conns w /\
    same_outside w w'.
Proof.
  induction n as [|n IH]; intros r mx w k Hk Hfail Hok; [lia|].
  rewrite connect_loop_step.
  destruct k as [|k].
  - rewrite Nat.add_0_r in *. rewrite Hok.
    exists (opened w). unfold opened, attempted. rewrite Hok.
    repeat split; reflexivity.
  - pose proof (Hfail 0%nat (Nat.lt_0_succ k)) as H0.
    rewrite Nat.add_0_r in H0.
    destruct (net w (attempts w)) as [|e] eqn:E; [discriminate|].
    cbn [transient] in H0. rewrite H0.
    destruct (IH (S r) mx (backed_off (S r) mx w) k) as (w' & Hr & Ht & Ha & Ho & Hs).
    { lia. }
    { intros j Hj. cbn [backed_off attempted emit put_line with_attempts
                        attempts net].
      replace (S (attempts w) + j)%nat with (attempts w + S j)%nat by lia.
      apply Hfail. lia. }
    { cbn [backed_off attempted emit put_line with_attempts attempts net].
      replace (S (attempts w) + k)%nat with (attempts w + S k)%nat by lia.
      exact Hok. }
    cbn [backed_off attempted emit put_line with_attempts attempts db
         open_conns] in Hr, Ha, Ho.
    replace (S (attempts w) + k)%nat with (attempts w + S k)%nat in Hr, Ha, Ho
      by lia.
    exists w'. split; [exact Hr|]. split.
    + rewrite Ht, (failed_attempts_S w (S r) mx k).
      cbn [backed_off attempted emit put_line with_attempts trace].
      rewrite E, <- !app_assoc. reflexivity.
    + split; [exact Ha|]. split; [exact Ho|].
      eapply same_outside_trans; [apply (same_outside_backed_off (S r) mx)|exact Hs].
Qed.

Lemma statements_app t1 t2 :
  statements (t1 ++ t2)%list = (statements t1 ++ statements t2)%list.
Proof.
  induction t1 as [|e t1 IH]; [reflexivity|].
  destruct e; cbn [app statements]; rewrite IH; reflexivity.
Qed.


Lemma new_events_app {A} (m : M A) w evs :
  trace (snd (m w)) = (trace w ++ evs)%list -> new_events m w = evs.
Proof.
  intros H. unfold new_events. rewrite H, skipn_app, skipn_all, Nat.sub_diag.
  reflexivity.
Qed.

(** Whatever the provider answers, it leaves the outside alone, it runs
    no statement and closes nothing, and it leaves behind an open
    connection exactly when it returns one. *)
Lemma connect_loop_inv n : forall r mx w res w1,
  connect_loop n r mx w = (res, w1) ->
  same_outside w w1 /\
  match res with
  | Ok c => open_conns w1 = (c, db w) :: open_conns w
  | Raise _ => open_conns w1 = open_conns w
  end /\
  exists evs, trace w1 = (trace w ++ evs)%list /\
              statements evs = [] /\ closes evs = [].
Proof.
  induction n as [|n IH]; intros r mx w res w1 H.
  - cbn in H. injection H as <- <-.
    split; [apply same_outside_refl|]. split; [reflexivity|].
    exists []. now rewrite app_nil_r.
  - rewrite connect_loop_step in H.
    destruct (net w (attempts w)) as [|e].
    + injection H as <- <-. split; [repeat split|]. split; [reflexivity|].
      eexists. split; [reflexivity|]. split; reflexivity.
    + destruct (is_OperationalError e).
      * apply IH in H. destruct H as (Hs & Ho & evs & Ht & Hst & Hcl).
        split; [|split].
        -- eapply same_outside_trans; [apply (same_outside_backed_off (S r) mx)|exact Hs].
        -- exact Ho.
        -- cbn [backed_off attempted emit put_line with_attempts trace] in Ht.
           rewrite <- !app_assoc in Ht.
           eexists. split; [exact Ht|].
           split; cbn [app statements closes]; assumption.
      * injection H as <- <-. split; [repeat split|]. split; [reflexivity|].
        eexists. split; [reflexivity|]. split; reflexivity.
Qed.

Lemma connect_loop_attempts n : forall r mx w res w1,
  connect_loop n r mx w = (res, w1) -> (attempts w <= attempts w1)%nat.
Proof.
  induction n as [|n IH]; intros r mx w res w1 H.
  - cbn in H. injection H as _ <-. lia.
  - rewrite connect_loop_step in H.
    destruct (net w (attempts w)) as [|e].
    + injection H as _ <-. cbn. lia.
    + destruct (is_OperationalError e).
      * apply IH in H. cbn in H. lia.
      * injection H as _ <-. cbn. lia.
Qed.

(** The provider makes one connection object when it returns, the one
    it returns, and none when it raises. *)
Lemma connect_loop_made n : forall r mx w res w1,
  connect_loop n r mx w = (res, w1) ->
  made_since w w1 = match res with Ok c => [c] | Raise _ => [] end.
Proof.
  induction n as [|n IH]; intros r mx w res w1 H.
  - cbn in H. injection H as <- <-. unfold made_since.
    now rewrite Nat.sub_diag.
  - rewrite connect_loop_step in H.
    destruct (net w (attempts w)) as [|e] eqn:E.
    + injection H as <- <-. unfold made_since.
      cbn [opened attempted with_open emit with_attempts attempts].
      replace (S (attempts w) - attempts w)%nat with 1%nat by lia.
      cbn [seq filter]. now rewrite E.
    + destruct (is_OperationalError e).
      * pose proof (connect_loop_attempts _ _ _ _ _ _ H) as Hle.
        apply IH in H. rewrite <- H. unfold made_since.
        cbn [backed_off attempted emit put_line with_attempts attempts net]
          in *.
        replace (attempts w1 - attempts w)%nat
          with (S (attempts w1 - S (attempts w))) by lia.
        cbn [seq filter]. now rewrite E.
      * injection H as <- <-. unfold made_since.
        cbn [attempted emit with_attempts attempts].
        replace (S (attempts w) - attempts w)%nat with 1%nat by lia.
        cbn [seq filter]. now rewrite E.
Qed.

Lemma made_since_later entry w w' :
  attempts w' = attempts w -> made_since entry w' = made_since entry w.
Proof. intros H. unfold made_since. now rewrite H. Qed.

(** What leaving the function does to the connection it was given. *)
Lemma release_acquired w c w1 w2 :
  get_db_connection default_retries w = (Ok c, w1) ->
  attempts w2 = attempts w1 ->
  release_locals w w2 = finalize c w2.
Proof.
  intros H Ha. unfold release_locals.
  rewrite (made_since_later w w1 w2 Ha), (connect_loop_made _ _ _ _ _ _ H).
  reflexivity.
Qed.

Lemma release_not_acquired w e w1 w2 :
  get_db_connection default_retries w = (Raise e, w1) ->
  attempts w2 = attempts w1 ->
  release_locals w w2 = w2.
Proof.
  intros H Ha. unfold release_locals.
  rewrite (made_since_later w w1 w2 Ha), (connect_loop_made _ _ _ _ _ _ H).
  reflexivity.
Qed.

Lemma finalize_closed c w :
  snapshot c (open_conns w) = None -> finalize c w = w.
Proof. intros H. unfold finalize. now rewrite H. Qed.

Lemma finalize_open c w d o :
  open_conns w = (c, d) :: o ->
  finalize c w = with_open (drop_conn c o) (emit (EvFinalize c) w).
Proof.
  intros H. unfold finalize. rewrite H. cbn [snapshot drop_conn filter fst].
  rewrite Nat.eqb_refl. reflexivity.
Qed.

Lemma acquired w c w1 :
  get_db_connection default_retries w = (Ok c, w1) ->
  same_outside w w1 /\ open_conns w1 = (c, db w) :: open_conns w.
Proof.
  intros H. destruct (connect_loop_inv _ _ _ _ _ _ H) as (Hs & Ho & _).
  now split.
Qed.

Lemma not_acquired w e w1 :
  get_db_connection default_retries w = (Raise e, w1) ->
  same_outside w w1 /\ open_conns w1 = open_conns w.
Proof.
  intros H. destruct (connect_loop_inv _ _ _ _ _ _ H) as (Hs & Ho & _).
  now split.
Qed.

Lemma provider_trace w res w1 :
  get_db_connection default_retries w = (res, w1) ->
  exists evs, trace w1 = (trace w ++ evs)%list /\
              statements evs = [] /\ closes evs = [].
Proof. intros H. exact (proj2 (proj2 (connect_loop_inv _ _ _ _ _ _ H))). Qed.

(** C3, as amended.  A call of the connection provider makes at most 5
    attempts.  When each of them fails with an [OperationalError] it
    raises the exhaustion error after the fifth, having slept 3 seconds
    after every failed attempt, the fifth included.  When the attempt
    number [k] is the first to succeed it returns that attempt's
    connection, having slept 3 seconds after each of the [k] failures
    before it, and leaves that connection open. *)
Theorem get_db_connection_retries (w : World) :
  ((forall j, (j < 5)%nat -> transient (net w (attempts w + j)) = true) ->
   exists w',
     get_db_connection default_retries w = (Raise exhausted, w') /\
     trace w' = (trace w ++ failed_attempts w 5)%list /\
     attempts w' = (attempts w + 5)%nat /\
     open_conns w' = open_conns w)
  /\
  (forall k, (k < 5)%nat ->
     (forall j, (j < k)%nat -> transient (net w (attempts w + j)) = true) ->
     net w (attempts w + k) = ConnOk ->
     exists w',
       get_db_connection default_retries w = (Ok (attempts w + k)%nat, w') /\
       trace w' = (trace w ++ failed_attempts w k
                   ++ [EvConnect (conn_params w) ConnOk])%list /\
       attempts w' = S (attempts w + k) /\
       open_conns w' = ((attempts w + k)%nat, db w) :: open_conns w).
Proof.
  split.
  - intros Hall.
    destruct (connect_loop_exhausted 5 0 5 w Hall) as (w' & Hr & Ht & Ha & Ho & _).
    exists w'. auto.
  - intros k Hk Hfail Hok.
    destruct (connect_loop_first_ok 5 0 5 w k Hk Hfail Hok)
      as (w' & Hr & Ht & Ha & Ho & _).
    exists w'. auto.
Qed.

Lemma get_db_connection_retries_witness :
  (exists w',
     get_db_connection default_retries (sample_world database_down None)
     = (Raise exhausted, w') /\
     trace w' = failed_attempts (sample_world database_down None) 5 /\
     attempts w' = 5%nat /\
     open_conns w' = [])
  /\
  (exists w',
     get_db_connection default_retries (sample_world database_late None)
     = (Ok 2%nat, w') /\
     trace w' = (failed_attempts (sample_world database_late None) 2
                 ++ [EvConnect (conn_params (sample_world database_late None))
                               ConnOk])%list /\
     attempts w' = 3%nat /\
     open_conns w' = [(2%nat, None)]).
Proof.
  split.
  - apply (proj1 (get_db_connection_retries (sample_world database_down None))).
    intros j _. reflexivity.
  - apply (proj2 (get_db_connection_retries (sample_world database_late None))
                 2%nat).
    + repeat constructor.
    + intros j Hj. destruct j as [|[|j]]; [reflexivity|reflexivity|].
      exfalso. exact (Nat.nle_succ_0 _ (le_S_n _ _ (le_S_n _ _ Hj))).
    + reflexivity.
Defined.

(** C3, as the claim has it: no sleep but between two attempts.  The
    provider sleeps once more, after the fifth failure. *)
Lemma get_db_connection_sleeps_after_last_attempt :
  ~ (forall w,
       (forall j, (j < 5)%nat -> transient (net w (attempts w + j)) = true) ->
       sleeps_only_between
         (new_events (get_db_connection default_retries) w) = true).
Proof.
  intros H.
  specialize (H (sample_world database_down None) (fun _ _ => eq_refl)).
  vm_compute in H. discriminate.
Qed.

(** ** Start-up *)






(** ** The routes *)

(** C9.  [GET /] answers 200 with the service metadata, the host name of
    the machine and [database: connected], whatever the world: it makes
    no connection attempt, runs no statement and leaves the world as it
    found it, so the answer does not depend on the database being
    reachable. *)
Theorem index_is_unconditional (w : World) :
  index w =
  (Ok (mkResponse 200 (JObj [("service", JStr "Backend API");
                             ("hostname", JStr (hostname w));
                             ("status", JStr "running");
                             ("database", JStr "connected")])), w)
  /\
  (forall n d, fst (index (with_net n (with_db d w))) = fst (index w)).
Proof.
  split; reflexivity.
Qed.

(** *** The driver, on a connection that is open *)

Lemma with_connection {A} (f : cursor_factory) (k : Conn -> Cursor -> M A)
      w c w1 :
  get_db_connection default_retries w = (Ok c, w1) ->
  (conn <- get_db_connection default_retries ;;
   cur <- conn_cursor conn f ;;
   k conn cur) w
  = k c (mkCursor c f [] (-1)) w1.
Proof.
  intros H. destruct (acquired _ _ _ H) as [_ Ho].
  erewrite bind_ok by exact H.
  unfold bind at 1, conn_cursor. rewrite Ho. cbn [snapshot].
  now rewrite Nat.eqb_refl.
Qed.

Lemma execute_ok cur stmt params w d o d' rs :
  open_conns w = (cur_conn cur, d) :: o ->
  run (coerce w) stmt params d = inr (d', rs) ->
  cur_execute cur stmt params w
  = (Ok (mkCursor (cur_conn cur) (cur_factory cur) (rs_rows rs) (rs_rowcount rs)),
     with_open ((cur_conn cur, d') :: o)
               (emit (EvExecute (cur_conn cur) stmt params) w)).
Proof.
  intros Ho Hr. unfold cur_execute. rewrite Ho. cbn [snapshot].
  rewrite Nat.eqb_refl, Hr. cbn [emit open_conns]. rewrite Ho.
  cbn [set_snapshot]. now rewrite Nat.eqb_refl.
Qed.

Lemma execute_raises cur stmt params w d o e :
  open_conns w = (cur_conn cur, d) :: o ->
  run (coerce w) stmt params d = inl e ->
  cur_execute cur stmt params w
  = (Raise (mkExn (db_error_class e) (pg_text w e)),
     emit (EvExecute (cur_conn cur) stmt params) w).
Proof.
  intros Ho Hr. unfold cur_execute. rewrite Ho. cbn [snapshot].
  now rewrite Nat.eqb_refl, Hr.
Qed.

Lemma commit_ok c w d o :
  open_conns w = (c, d) :: o ->
  conn_commit c w = (Ok tt, with_db d (emit (EvCommit c) w)).
Proof.
  intros Ho. unfold conn_commit. rewrite Ho. cbn [snapshot].
  now rewrite Nat.eqb_refl.
Qed.

(** *** The store, statement by statement *)

Lemma run_select_all co t :
  run co sql_select_all [] (Some t)
  = inr (Some t, mkResultSet (map row_record (order_by_id (rows t)))
                             (Z.of_nat (List.length (order_by_id (rows t))))).
Proof. reflexivity. Qed.

Lemma run_select_all_undefined co :
  run co sql_select_all [] None = inl UndefinedTable.
Proof. reflexivity. Qed.

Lemma run_select_by_id co n t :
  run co sql_select_by_id [JInt n] (Some t)
  = inr (Some t, mkResultSet (map row_record (filter (has_id n) (rows t)))
                             (Z.of_nat (List.length (filter (has_id n) (rows t))))).
Proof. reflexivity. Qed.

Lemma run_insert_eq co nm de d :
  run co sql_insert [nm; de] d
  = bound co nm (fun a => bound co de (fun d' => need_table d (run_insert a d'))).
Proof. reflexivity. Qed.

Lemma run_update_name co nm i d :
  run co sql_update_name [nm; JInt i] d
  = bound co nm (fun a => need_table d (run_update (Some a) None (JInt i))).
Proof. reflexivity. Qed.

Lemma run_update_description co de i d :
  run co sql_update_description [de; JInt i] d
  = bound co de (fun d' => need_table d (run_update None (Some d') (JInt i))).
Proof. reflexivity. Qed.

Lemma run_update_both co nm de i d :
  run co sql_update_both [nm; de; JInt i] d
  = bound co nm (fun a =>
    bound co de (fun d' =>
    need_table d (run_update (Some a) (Some d') (JInt i)))).
Proof. reflexivity. Qed.

(** *** The round trip of a reading route *)

Lemma get_items_reads :
  get_items
  = read_round_trip RealDictCursor sql_select_all [] fetchall listed
                    internal_error.
Proof. reflexivity. Qed.

Lemma get_item_reads i :
  get_item i
  = read_round_trip RealDictCursor sql_select_by_id [JInt i] fetchone
                    found_or_404 internal_error.
Proof. reflexivity. Qed.

Lemma health_reads :
  health
  = read_round_trip PlainCursor sql_select_1 [] (fun _ => JNull)
                    report_healthy report_unhealthy.
Proof. reflexivity. Qed.

Lemma found_or_404_returns (x : json) (w0 : World) :
  found_or_404 x w0 = (Ok (found_or_404_answer x), w0).
Proof. unfold found_or_404, found_or_404_answer. destruct (truthy x); reflexivity. Qed.

Lemma listed_returns x w0 : listed x w0 = (Ok (jsonify x), w0).
Proof. reflexivity. Qed.

Lemma internal_error_returns e w0 : internal_error e w0 = (Ok (error_500 e), w0).
Proof. reflexivity. Qed.

Lemma report_healthy_returns x w0 :
  report_healthy x w0 = (Ok (jsonify (healthy_body (hostname w0))), w0).
Proof. reflexivity. Qed.

Lemma report_unhealthy_returns e w0 :
  report_unhealthy e w0
  = (Ok (mkResponse 500 (unhealthy_body e (hostname w0))), w0).
Proof. reflexivity. Qed.

(** The three ways out of a reading route.  The answers may show the
    host name, which no step changes.  Where the statement raises, the
    handler calls no [close]: the connection is closed by its
    destructor when the handler returns. *)
Lemma read_round_trip_cases f stmt params fetch finish handler
      (g : json -> string -> Response) (ge : exn -> string -> Response) w :
  (forall x w0, finish x w0 = (Ok (g x (hostname w0)), w0)) ->
  (forall e w0, handler e w0 = (Ok (ge e (hostname w0)), w0)) ->
  match get_db_connection default_retries w with
  | (Raise e, w1) =>
      read_round_trip f stmt params fetch finish handler w
      = (Ok (ge e (hostname w)), w1)
  | (Ok c, w1) =>
      match run (coerce w) stmt params (db w) with
      | inl e =>
          exists w',
            read_round_trip f stmt params fetch finish handler w
            = (Ok (ge (store_exn w e) (hostname w)), w')
            /\ db w' = db w
            /\ open_conns w' = drop_conn c (open_conns w)
            /\ trace w' = (trace w1 ++ [EvExecute c stmt params;
                                        EvFinalize c])%list
            /\ attempts w' = attempts w1
      | inr (d', rs) =>
          exists w',
            read_round_trip f stmt params fetch finish handler w
            = (Ok (g (fetch (mkCursor c f (rs_rows rs) (rs_rowcount rs)))
                     (hostname w)), w')
            /\ db w' = db w
            /\ open_conns w' = drop_conn c (open_conns w)
            /\ trace w' = (trace w1 ++ [EvExecute c stmt params;
                                        EvClose c])%list
            /\ attempts w' = attempts w1
      end
  end.
Proof.
  intros Hfin Hh. unfold read_round_trip.
  destruct (get_db_connection default_retries w) as [[c|e] w1] eqn:H.
  - destruct (acquired _ _ _ H) as [Hs Ho].
    assert (Hco : coerce w1 = coerce w) by apply Hs.
    assert (Hpg : pg_text w1 = pg_text w) by apply Hs.
    assert (Hhn : hostname w1 = hostname w) by apply Hs.
    assert (Hdb : db w1 = db w) by apply Hs.
    destruct (run (coerce w) stmt params (db w)) as [e|[d' rs]] eqn:Hrun.
    + erewrite py_def_ok.
      2:{ erewrite try_except_raise.
          2:{ rewrite (with_connection _ _ _ _ _ H).
              apply bind_raise. eapply execute_raises; [exact Ho|].
              rewrite Hco. exact Hrun. }
          apply Hh. }
      rewrite (release_acquired _ _ _ _ H) by reflexivity.
      erewrite finalize_open by (cbn [emit open_conns]; exact Ho).
      eexists. split.
      { cbn [emit hostname]. unfold store_exn. rewrite Hhn, Hpg. reflexivity. }
      cbn [db open_conns trace attempts with_open emit].
      split; [exact Hdb|]. split; [reflexivity|]. split; [|reflexivity].
      rewrite <- !app_assoc. reflexivity.
    + erewrite py_def_ok.
      2:{ erewrite try_except_ok.
          2:{ rewrite (with_connection _ _ _ _ _ H).
              erewrite bind_ok.
              2:{ eapply execute_ok; [exact Ho|]. rewrite Hco. exact Hrun. }
              cbn [cur_conn cur_factory].
              unfold bind, cur_close, ret, conn_close, effect.
              rewrite Hfin. reflexivity. }
          reflexivity. }
      rewrite (release_acquired _ _ _ _ H) by reflexivity.
      rewrite finalize_closed.
      2:{ cbn [open_conns with_open emit drop_conn filter fst].
          rewrite Nat.eqb_refl. cbn [negb]. apply snapshot_dropped. }
      eexists. split.
      { cbn [hostname with_open emit]. rewrite Hhn. reflexivity. }
      cbn [db open_conns trace with_open with_db emit drop_conn filter fst
           negb attempts].
      rewrite Nat.eqb_refl. cbn [negb].
      split; [exact Hdb|]. split; [reflexivity|].
      split; [|reflexivity].
      rewrite <- !app_assoc. reflexivity.
  - erewrite py_def_ok.
    2:{ erewrite try_except_raise by (apply bind_raise; exact H). apply Hh. }
    rewrite (release_not_acquired _ _ _ _ H) by reflexivity.
    destruct (not_acquired _ _ _ H) as [Hs _].
    assert (Hhn : hostname w1 = hostname w) by apply Hs.
    now rewrite Hhn.
Qed.

(** *** [ORDER BY id] *)

Lemma insert_by_id_perm r l : Permutation (r :: l) (insert_by_id r l).
Proof.
  induction l as [|r' l IH]; cbn [insert_by_id].
  - apply Permutation_refl.
  - destruct (id r <=? id r').
    + apply Permutation_refl.
    + eapply perm_trans; [apply perm_swap|]. now apply perm_skip.
Qed.

Lemma order_by_id_perm l : Permutation l (order_by_id l).
Proof.
  induction l as [|r l IH]; cbn [order_by_id].
  - apply perm_nil.
  - eapply perm_trans; [apply perm_skip, IH|apply insert_by_id_perm].
Qed.

Lemma insert_by_id_sorted r l :
  StronglySorted id_le l -> StronglySorted id_le (insert_by_id r l).
Proof.
  induction 1 as [|r' l Hs IH Hall]; cbn [insert_by_id].
  - repeat constructor.
  - destruct (id r <=? id r') eqn:E.
    + apply Z.leb_le in E. constructor.
      * now constructor.
      * constructor; [exact E|].
        eapply Forall_impl; [|exact Hall].
        intros a Ha. unfold id_le in *. lia.
    + apply Z.leb_gt in E. constructor; [exact IH|].
      eapply Permutation_Forall; [apply insert_by_id_perm|].
      constructor; [unfold id_le; lia|exact Hall].
Qed.

Lemma order_by_id_sorted l : StronglySorted id_le (order_by_id l).
Proof.
  induction l as [|r l IH]; cbn [order_by_id].
  - constructor.
  - now apply insert_by_id_sorted.
Qed.

(** C5.  When a connection is obtained and the table exists, whatever
    rows it holds and in whatever order they are stored, [GET /items]
    answers 200 with all of them (a permutation of the stored rows) in
    ascending order of id, and leaves the store as it was. *)
Theorem get_items_ordered (w : World) (c : Conn) (w1 : World) (t : Table) :
  get_db_connection default_retries w = (Ok c, w1) ->
  db w = Some t ->
  exists w',
    get_items w
    = (Ok (mkResponse 200 (JArr (map item_json (order_by_id (rows t))))), w')
    /\ Permutation (rows t) (order_by_id (rows t))
    /\ StronglySorted id_le (order_by_id (rows t))
    /\ db w' = db w.
Proof.
  intros H Ht.
  pose proof (read_round_trip_cases RealDictCursor sql_select_all [] fetchall
                listed internal_error (fun x _ => jsonify x)
                (fun e _ => error_500 e) w
                listed_returns internal_error_returns) as Hc.
  rewrite H, Ht, run_select_all in Hc.
  destruct Hc as (w' & Hc & Hd & _).
  exists w'. split.
  - rewrite get_items_reads, Hc.
    unfold fetchall. cbn [cur_factory cur_rows rs_rows jsonify].
    rewrite map_map. reflexivity.
  - split; [apply order_by_id_perm|].
    split; [apply order_by_id_sorted|].
    now rewrite Hd, Ht.
Qed.

Lemma get_items_ordered_witness :
  exists w',
    get_items (sample_world database_up (Some three_items))
    = (Ok (mkResponse 200
             (JArr (map item_json (order_by_id (rows three_items))))), w')
    /\ Permutation (rows three_items) (order_by_id (rows three_items))
    /\ StronglySorted id_le (order_by_id (rows three_items))
    /\ db w' = Some three_items.
Proof.
  eapply (get_items_ordered (sample_world database_up (Some three_items)) 0%nat).
  - reflexivity.
  - reflexivity.
Defined.

(** *** The round trip of a writing route *)

(** Its three ways out: no connection, a statement that raises, a
    statement that runs.  Only the last one calls [close]; where the
    statement raises, the connection is closed by its destructor when
    the handler returns. *)
Lemma write_round_trip_cases f stmt params finish (g : json -> Response) w :
  (forall x w0, finish x w0 = (Ok (g x), w0)) ->
  match get_db_connection default_retries w with
  | (Raise e, w1) =>
      write_round_trip f stmt params finish w
      = (Ok (mkResponse 500 (error_body (str e))), w1)
  | (Ok c, w1) =>
      match run (coerce w) stmt params (db w) with
      | inl e =>
          exists w',
            write_round_trip f stmt params finish w
            = (Ok (mkResponse 500 (error_body (pg_text w e))), w')
            /\ db w' = db w
            /\ open_conns w' = drop_conn c (open_conns w)
            /\ trace w' = (trace w1 ++ [EvExecute c stmt params;
                                        EvFinalize c])%list
      | inr (d', rs) =>
          exists w',
            write_round_trip f stmt params finish w
            = (Ok (g (fetchone (mkCursor c f (rs_rows rs) (rs_rowcount rs)))), w')
            /\ db w' = d'
            /\ open_conns w' = drop_conn c (open_conns w)
            /\ trace w' = (trace w1 ++ [EvExecute c stmt params;
                                        EvCommit c; EvClose c])%list
      end
  end.
Proof.
  intros Hfin. unfold write_round_trip.
  destruct (get_db_connection default_retries w) as [[c|e] w1] eqn:H.
  - destruct (acquired _ _ _ H) as [Hs Ho].
    assert (Hco : coerce w1 = coerce w) by apply Hs.
    assert (Hpg : pg_text w1 = pg_text w) by apply Hs.
    assert (Hdb : db w1 = db w) by apply Hs.
    destruct (run (coerce w) stmt params (db w)) as [e|[d' rs]] eqn:Hrun.
    + erewrite py_def_ok.
      2:{ erewrite try_except_raise.
          2:{ rewrite (with_connection _ _ _ _ _ H).
              apply bind_raise. eapply execute_raises; [exact Ho|].
              rewrite Hco. exact Hrun. }
          reflexivity. }
      rewrite (release_acquired _ _ _ _ H) by reflexivity.
      erewrite finalize_open by (cbn [emit open_conns]; exact Ho).
      eexists. split.
      { unfold str. cbn [msg]. rewrite Hpg. reflexivity. }
      cbn [db open_conns trace with_open emit].
      split; [exact Hdb|]. split; [reflexivity|].
      rewrite <- !app_assoc. reflexivity.
    + erewrite py_def_ok.
      2:{ erewrite try_except_ok.
          2:{ rewrite (with_connection _ _ _ _ _ H).
              erewrite bind_ok.
              2:{ eapply execute_ok; [exact Ho|]. rewrite Hco. exact Hrun. }
              cbn [cur_conn cur_factory].
              erewrite bind_ok by (eapply commit_ok; reflexivity).
              unfold bind, cur_close, ret, conn_close, effect.
              rewrite Hfin. reflexivity. }
          reflexivity. }
      rewrite (release_acquired _ _ _ _ H) by reflexivity.
      rewrite finalize_closed.
      2:{ cbn [open_conns with_open with_db emit drop_conn filter fst].
          rewrite Nat.eqb_refl. cbn [negb]. apply snapshot_dropped. }
      eexists. split; [reflexivity|].
      cbn [db open_conns trace with_open with_db emit drop_conn filter fst negb].
      rewrite Nat.eqb_refl. cbn [negb].
      split; [reflexivity|]. split; [reflexivity|].
      rewrite <- !app_assoc. reflexivity.
  - erewrite py_def_ok.
    2:{ erewrite try_except_raise by (apply bind_raise; exact H). reflexivity. }
    rewrite (release_not_acquired _ _ _ _ H) by reflexivity.
    reflexivity.
Qed.

(** *** [POST /items] *)

Lemma truthy_dict kv k v : assoc k kv = Some v -> truthy (JObj kv) = true.
Proof. destruct kv; [discriminate|reflexivity]. Qed.

(** A body that names the item gets as far as the store. *)
Lemma create_item_named req kv nm w :
  is_json req = true ->
  json_loads req = Some (JObj kv) ->
  assoc "name" kv = Some nm ->
  truthy nm = true ->
  create_item req w
  = write_round_trip RealDictCursor sql_insert
      [nm; match assoc "description" kv with
           | Some v => v
           | None => JStr ""
           end]
      created w.
Proof.
  intros Hj Hl Hn Ht.
  unfold create_item, write_round_trip, try_except.
  step_get_json Hj Hl.
  rewrite (truthy_dict _ _ _ Hn). cbn [negb].
  step_get. rewrite Hn, Ht. cbn [negb].
  step_get. reflexivity.
Qed.

(** A body that does not is turned away before any connection is made. *)
Lemma create_item_unnamed req kv w :
  is_json req = true ->
  json_loads req = Some (JObj kv) ->
  truthy (field "name" kv) = false ->
  create_item req w
  = (Ok (mkResponse 400
           (error_body (if truthy (JObj kv) then "Item name is required"
                        else "Request must contain JSON"))), w).
Proof.
  intros Hj Hl Hn.
  unfold create_item. apply py_def_untouched. unfold try_except.
  step_get_json Hj Hl.
  destruct (truthy (JObj kv)); cbn [negb]; [|reflexivity].
  step_get. fold (field "name" kv). rewrite Hn. reflexivity.
Qed.


(** What the handler does once the store has taken the row. *)
Lemma create_item_inserted req kv nm w c w1 t t' r :
  is_json req = true ->
  json_loads req = Some (JObj kv) ->
  assoc "name" kv = Some nm ->
  truthy nm = true ->
  get_db_connection default_retries w = (Ok c, w1) ->
  db w = Some t ->
  run (coerce w) sql_insert
      [nm; match assoc "description" kv with
           | Some v => v
           | None => JStr ""
           end] (Some t)
  = inr (Some t', mkResultSet [row_record r] 1) ->
  exists w',
    create_item req w = (Ok (mkResponse 201 (item_json r)), w') /\
    db w' = Some t' /\
    open_conns w' = drop_conn c (open_conns w) /\
    trace w' = (trace w1 ++ [EvExecute c sql_insert
                               [nm; match assoc "description" kv with
                                    | Some v => v
                                    | None => JStr ""
                                    end];
                             EvCommit c; EvClose c])%list.
Proof.
  intros Hj Hl Hn Ht H Hd Hrun.
  rewrite (create_item_named _ _ _ _ Hj Hl Hn Ht).
  pose proof (write_round_trip_cases RealDictCursor sql_insert
                [nm; match assoc "description" kv with
                     | Some v => v
                     | None => JStr ""
                     end]
                created (fun x => with_status (jsonify x) 201) w
                (fun _ _ => eq_refl)) as Hc.
  rewrite H, Hd, Hrun in Hc. exact Hc.
Qed.

(** *** [GET /items/<id>] *)

Lemma get_item_found n w c w1 t r rest :
  get_db_connection default_retries w = (Ok c, w1) ->
  db w = Some t ->
  filter (has_id n) (rows t) = r :: rest ->
  exists w', get_item n w = (Ok (mkResponse 200 (item_json r)), w') /\
             db w' = db w.
Proof.
  intros H Hd Hf.
  pose proof (read_round_trip_cases RealDictCursor sql_select_by_id [JInt n]
                fetchone found_or_404 internal_error
                (fun x _ => found_or_404_answer x) (fun e _ => error_500 e) w
                found_or_404_returns internal_error_returns) as Hc.
  rewrite H, Hd, run_select_by_id in Hc.
  destruct Hc as (w' & Hc & Hd' & _).
  exists w'. split; [|now rewrite Hd', Hd].
  rewrite get_item_reads, Hc. unfold fetchone.
  cbn [cur_factory cur_rows rs_rows]. rewrite Hf. reflexivity.
Qed.

Lemma get_item_missing n w c w1 t :
  get_db_connection default_retries w = (Ok c, w1) ->
  db w = Some t ->
  filter (has_id n) (rows t) = [] ->
  exists w', get_item n w
             = (Ok (mkResponse 404 (error_body "Item not found")), w') /\
             db w' = db w.
Proof.
  intros H Hd Hf.
  pose proof (read_round_trip_cases RealDictCursor sql_select_by_id [JInt n]
                fetchone found_or_404 internal_error
                (fun x _ => found_or_404_answer x) (fun e _ => error_500 e) w
                found_or_404_returns internal_error_returns) as Hc.
  rewrite H, Hd, run_select_by_id in Hc.
  destruct Hc as (w' & Hc & Hd' & _).
  exists w'. split; [|now rewrite Hd', Hd].
  rewrite get_item_reads, Hc. unfold fetchone.
  cbn [cur_factory cur_rows rs_rows]. rewrite Hf. reflexivity.
Qed.


(** *** [PUT /items/<id>] *)


(** With a dict for a body and a field supplied, the handler makes the
    round trip with the statement the specification describes. *)
Lemma update_item_statement req kv i w :
  is_json req = true ->
  json_loads req = Some (JObj kv) ->
  supplied "name" kv || supplied "description" kv = true ->
  update_item req i w
  = write_round_trip RealDictCursor
      (spec_update_text (supplied "name" kv) (supplied "description" kv))
      (spec_update_values kv i) found_or_404 w.
Proof.
  intros Hj Hl Hs.
  assert (Hk : truthy (JObj kv) = true).
  { destruct kv; [discriminate Hs|reflexivity]. }
  unfold update_item, write_round_trip. apply py_def_ext. unfold try_except.
  step_get_json Hj Hl. rewrite Hk. cbn [negb].
  step_get. step_get.
  fold (field "name" kv). fold (field "description" kv).
  unfold spec_update_values, spec_update_text, supplied in *.
  unfold update_clauses.
  destruct (is_None (field "name" kv)), (is_None (field "description" kv));
    cbn [negb orb] in *; [discriminate Hs|reflexivity..].
Qed.

(** Without a field supplied the handler answers 400 and touches
    nothing. *)
Lemma update_item_nothing_supplied req kv i w :
  is_json req = true ->
  json_loads req = Some (JObj kv) ->
  supplied "name" kv || supplied "description" kv = false ->
  exists resp, update_item req i w = (Ok resp, w) /\ status resp = 400.
Proof.
  intros Hj Hl Hs.
  unfold update_item.
  match goal with |- context [py_def ?b w] =>
    assert (H : exists resp, b w = (Ok resp, w) /\ status resp = 400) end.
  { unfold try_except.
    step_get_json Hj Hl.
    destruct (truthy (JObj kv)); cbn [negb].
    - step_get. step_get.
      fold (field "name" kv). fold (field "description" kv).
      unfold supplied in Hs. unfold update_clauses.
      destruct (is_None (field "name" kv)), (is_None (field "description" kv));
        cbn [negb orb] in *; try discriminate Hs.
      eexists. split; reflexivity.
    - eexists. split; reflexivity. }
  destruct H as (resp & H & Hst).
  exists resp. split; [now apply py_def_untouched|exact Hst].
Qed.

Lemma spec_update_run co kv i d :
  supplied "name" kv || supplied "description" kv = true ->
  run co (spec_update_text (supplied "name" kv) (supplied "description" kv))
      (spec_update_values kv i) d
  = bound_field co (supplied_field "name" kv) (fun nm =>
    bound_field co (supplied_field "description" kv) (fun de =>
    need_table d (run_update nm de (JInt i)))).
Proof.
  unfold spec_update_values, supplied_field.
  destruct (supplied "name" kv), (supplied "description" kv);
    cbn [orb]; intros H; [reflexivity..|discriminate H].
Qed.

(** [UPDATE] keeps the rows in place, their ids, and every column it was
    not asked to set. *)
Lemma update_rows_frame nm d n l : forall kept hit,
  update_rows nm d n l = inr (kept, hit) ->
  map id kept = map id l /\
  (nm = None -> map name kept = map name l) /\
  (d = None -> map description kept = map description l).
Proof.
  induction l as [|r l IH]; intros kept hit H; cbn [update_rows] in H.
  - injection H as <- <-. repeat split.
  - destruct (update_rows nm d n l) as [e|[kept' hit']]; [discriminate|].
    destruct (IH _ _ eq_refl) as (Hi & Hn & Hd).
    destruct (has_id n r).
    + destruct (set_row nm d r) as [e|r'] eqn:E; [discriminate|].
      injection H as <- <-. cbn [map].
      unfold set_row in E.
      destruct nm as [[s|]|]; try discriminate E; injection E as <-;
        cbn [id name description]; rewrite Hi;
        (split; [reflexivity|]); split; intros Hx; try discriminate Hx;
        subst; f_equal; auto.
    + injection H as <- <-. cbn [map]. rewrite Hi.
      split; [reflexivity|]. split; intros Hx; f_equal; auto.
Qed.

Lemma update_rows_sets nm d n l :
  update_rows (option_map Some nm) d n l
  = inr (map (fun r => if has_id n r then updated nm d r else r) l,
         map (updated nm d) (filter (has_id n) l)).
Proof.
  induction l as [|r l IH]; [reflexivity|].
  cbn [update_rows map filter]. rewrite IH.
  destruct (has_id n r); [|reflexivity].
  destruct nm; reflexivity.
Qed.

Lemma run_update_frame nm d i t d' rs :
  run_update nm d i t = inr (d', rs) ->
  column id d' = column id (Some t) /\
  (nm = None -> column name d' = column name (Some t)) /\
  (d = None -> column description d' = column description (Some t)).
Proof.
  unfold run_update. intros H.
  destruct i; try discriminate H.
  destruct (match nm with
            | Some a => match name_value a with
                        | inl e => inl e
                        | inr a' => inr (Some a')
                        end
            | None => inr None
            end) as [e|nm'] eqn:En; [discriminate|].
  destruct (update_rows nm' d n (rows t)) as [e|[kept hit]] eqn:E;
    [discriminate|].
  injection H as <- <-. apply update_rows_frame in E.
  destruct E as (Hi & Hn & Hd). cbn [column rows]. rewrite Hi.
  split; [reflexivity|]. split.
  - intros ->. injection En as <-. now rewrite (Hn eq_refl).
  - intros ->. now rewrite (Hd eq_refl).
Qed.

(** The same for the statement as the handler sends it, with its
    parameters still to be bound. *)
Lemma bound_update_frame co on od i d d' rs :
  bound_field co on (fun nm =>
  bound_field co od (fun de =>
  need_table d (run_update nm de (JInt i)))) = inr (d', rs) ->
  column id d' = column id d /\
  (on = None -> column name d' = column name d) /\
  (od = None -> column description d' = column description d).
Proof.
  unfold bound_field, bound. intros H.
  destruct on as [v|]; [destruct (adapt co v) as [e|a]; [discriminate|]|];
    (destruct od as [v'|]; [destruct (adapt co v') as [e|b]; [discriminate|]|]);
    (destruct d as [t|]; [|discriminate H]); cbn [need_table] in H;
    destruct (run_update_frame _ _ _ _ _ _ H) as (Hi & Hn & Hd);
    (split; [exact Hi|]); split; intros Hx; try discriminate Hx; auto.
Qed.

Lemma supplied_field_none k kv :
  supplied k kv = false -> supplied_field k kv = None.
Proof. unfold supplied_field. now intros ->. Qed.

(** C7.  For every world, every id and every request whose body is a
    JSON object, [PUT /items/<id>] leaves the rows of the table in place
    with their ids; when the body does not supply [name] it leaves the
    name of every row as it was, and when it does not supply
    [description] it leaves the description of every row as it was.
    This holds on every way out of the handler, the failing ones
    included. *)
Theorem update_item_frame (req : Request) (kv : list (string * json))
        (i : Z) (w : World) :
  is_json req = true ->
  json_loads req = Some (JObj kv) ->
  let w' := snd (update_item req i w) in
  column id (db w') = column id (db w) /\
  (supplied "name" kv = false ->
   column name (db w') = column name (db w)) /\
  (supplied "description" kv = false ->
   column description (db w') = column description (db w)).
Proof.
  intros Hj Hl w'. subst w'.
  destruct (supplied "name" kv || supplied "description" kv) eqn:Hs.
  2:{ destruct (update_item_nothing_supplied req kv i w Hj Hl Hs) as (resp & -> & _).
      cbn [snd]. repeat split. }
  rewrite (update_item_statement req kv i w Hj Hl Hs).
  pose proof (write_round_trip_cases RealDictCursor
                (spec_update_text (supplied "name" kv) (supplied "description" kv))
                (spec_update_values kv i) found_or_404 _ w
                found_or_404_returns) as Hc.
  destruct (get_db_connection default_retries w) as [[c|e] w1] eqn:H.
  - destruct (acquired _ _ _ H) as [Hout _].
    assert (Hdb : db w1 = db w) by apply Hout.
    rewrite spec_update_run in Hc by exact Hs.
    destruct (bound_field (coerce w) _ _) as [e|[d' rs]] eqn:Hrun.
    + destruct Hc as (w' & -> & Hd' & _). cbn [snd]. rewrite Hd'.
      repeat split.
    + destruct Hc as (w' & -> & Hd' & _). cbn [snd]. rewrite Hd'.
      destruct (bound_update_frame _ _ _ _ _ _ _ Hrun) as (Hi & Hn & Hd).
      split; [exact Hi|].
      split; intros Hx; [apply Hn|apply Hd]; now apply supplied_field_none.
  - rewrite Hc. cbn [snd]. destruct (not_acquired _ _ _ H) as [Hout _].
    assert (Hdb : db w1 = db w) by apply Hout.
    rewrite Hdb. repeat split.
Qed.

Lemma update_item_frame_witness :
  let req := json_request [("description", JStr "dried")] in
  let w := sample_world database_up (Some three_items) in
  let w' := snd (update_item req 2 w) in
  column id (db w') = column id (db w) /\
  (supplied "name" [("description", JStr "dried")] = false ->
   column name (db w') = column name (db w)) /\
  (supplied "description" [("description", JStr "dried")] = false ->
   column description (db w') = column description (db w)).
Proof.
  exact (update_item_frame (json_request [("description", JStr "dried")])
           [("description", JStr "dried")] 2
           (sample_world database_up (Some three_items)) eq_refl eq_refl).
Defined.

(** The update in that sample does take place: the description of item 2
    changes and nothing else does. *)
Example update_item_sample :
  db (snd (update_item (json_request [("description", JStr "dried")]) 2
             (sample_world database_up (Some three_items))))
  = Some (mkTable [mkRow 3 "pear" (Some "green"); mkRow 1 "apple" None;
                   mkRow 2 "fig" (Some "dried")] 3).
Proof. vm_compute. reflexivity. Qed.

Lemma three_items_from_sequence : ids_from_sequence three_items.
Proof.
  split; [discriminate|].
  intros r [<-|[<-|[<-|[]]]]; discriminate.
Defined.


(** C4.  When [PUT /items/<id>] has a JSON object for a body, at least
    one of [name] and [description] supplied, and a connection, it runs
    exactly one statement.  Its text is the one the specification
    describes: an assignment clause per supplied field, name before
    description, then the id predicate; the values are bound as
    parameters in the same order, the id last.  The text is a function
    of which fields are supplied and of nothing else, so a second
    request that supplies the same fields runs the same text, whatever
    its values, its id and its world. *)
Theorem update_statement_text (w : World) (c : Conn) (w1 : World)
        (req : Request) (kv : list (string * json)) (i : Z) :
  is_json req = true ->
  json_loads req = Some (JObj kv) ->
  supplied "name" kv || supplied "description" kv = true ->
  get_db_connection default_retries w = (Ok c, w1) ->
  statements (new_events (update_item req i) w)
  = [(spec_update_text (supplied "name" kv) (supplied "description" kv),
      spec_update_values kv i)]
  /\
  forall w2 c2 w3 req2 kv2 i2,
    is_json req2 = true ->
    json_loads req2 = Some (JObj kv2) ->
    get_db_connection default_retries w2 = (Ok c2, w3) ->
    supplied "name" kv2 = supplied "name" kv ->
    supplied "description" kv2 = supplied "description" kv ->
    map fst (statements (new_events (update_item req2 i2) w2))
    = map fst (statements (new_events (update_item req i) w)).
Proof.
  assert (Hone : forall w c w1 req kv i,
    is_json req = true ->
    json_loads req = Some (JObj kv) ->
    supplied "name" kv || supplied "description" kv = true ->
    get_db_connection default_retries w = (Ok c, w1) ->
    statements (new_events (update_item req i) w)
    = [(spec_update_text (supplied "name" kv) (supplied "description" kv),
        spec_update_values kv i)]).
  { clear. intros w c w1 req kv i Hj Hl Hs H.
    destruct (provider_trace _ _ _ H) as (evs & Ht & Hst & _).
    pose proof (write_round_trip_cases RealDictCursor
                  (spec_update_text (supplied "name" kv) (supplied "description" kv))
                  (spec_update_values kv i) found_or_404 _ w
                  found_or_404_returns) as Hc.
    rewrite H in Hc.
    destruct (run (coerce w) _ _ (db w)) as [e|[d' rs]].
    - destruct Hc as (w' & Hc & _ & _ & Ht').
      erewrite new_events_app.
      2:{ rewrite (update_item_statement req kv i w Hj Hl Hs), Hc.
          cbn [snd]. rewrite Ht', Ht, <- app_assoc. reflexivity. }
      rewrite statements_app, Hst. reflexivity.
    - destruct Hc as (w' & Hc & _ & _ & Ht').
      erewrite new_events_app.
      2:{ rewrite (update_item_statement req kv i w Hj Hl Hs), Hc.
          cbn [snd]. rewrite Ht', Ht, <- app_assoc. reflexivity. }
      rewrite statements_app, Hst. reflexivity. }
  intros Hj Hl Hs H. split; [now apply (Hone w c w1)|].
  intros w2 c2 w3 req2 kv2 i2 Hj2 Hl2 H2 Hn Hd.
  rewrite (Hone w c w1 req kv i), (Hone w2 c2 w3 req2 kv2 i2); try assumption.
  - cbn [map fst]. now rewrite Hn, Hd.
  - now rewrite Hn, Hd.
Qed.

Lemma update_statement_text_witness :
  let w := sample_world database_up (Some three_items) in
  let kv := [("name", JStr "plum"); ("description", JStr "blue")] in
  statements (new_events (update_item (json_request kv) 2) w)
  = [(spec_update_text (supplied "name" kv) (supplied "description" kv),
      spec_update_values kv 2)]
  /\
  forall w2 c2 w3 req2 kv2 i2,
    is_json req2 = true ->
    json_loads req2 = Some (JObj kv2) ->
    get_db_connection default_retries w2 = (Ok c2, w3) ->
    supplied "name" kv2 = supplied "name" kv ->
    supplied "description" kv2 = supplied "description" kv ->
    map fst (statements (new_events (update_item req2 i2) w2))
    = map fst (statements (new_events (update_item (json_request kv) 2) w)).
Proof.
  exact (update_statement_text (sample_world database_up (Some three_items))
           0%nat _
           (json_request [("name", JStr "plum"); ("description", JStr "blue")])
           [("name", JStr "plum"); ("description", JStr "blue")] 2
           eq_refl eq_refl eq_refl eq_refl).
Defined.

(** The three texts the handler can send. *)
Lemma spec_update_texts :
  spec_update_text true false = sql_update_name /\
  spec_update_text false true = sql_update_description /\
  spec_update_text true true = sql_update_both.
Proof. repeat split. Qed.

(** The clauses the handler assembles are the ones the specification
    describes. *)
Lemma update_query_refines nm de :
  update_query (fst (update_clauses nm de))
  = spec_update_text (negb (is_None nm)) (negb (is_None de)).
Proof. destruct (is_None nm) eqn:En, (is_None de) eqn:Ed;
         unfold update_clauses; rewrite En, Ed; reflexivity. Qed.

(** An update that sets the name to a short string and leaves the
    description alone. *)
Lemma run_update_name_only s i t :
  (String.length s <= 255)%nat ->
  run_update (Some (Some s)) None (JInt i) t
  = inr (Some (updated_table (Some s) None i t),
         mkResultSet
           (map row_record
                (map (updated (Some s) None) (filter (has_id i) (rows t))))
           (Z.of_nat (List.length
                        (map (updated (Some s) None)
                             (filter (has_id i) (rows t)))))).
Proof.
  intros Hlen. unfold run_update, name_value, varchar255.
  apply Nat.leb_le in Hlen. rewrite Hlen.
  pose proof (update_rows_sets (Some s) None i (rows t)) as Hu.
  cbn [option_map] in Hu. rewrite Hu. reflexivity.
Qed.

(** C10.  A JSON body whose [name] is the empty string and that supplies
    no [description] is turned away by [POST /items] with 400, before
    any connection is made.  [PUT /items/<id>] takes it: with a
    connection and the item in the table it answers 200 with the item
    under the empty name, and the store holds the item under the empty
    name afterwards. *)
Theorem update_accepts_empty_name (w : World) (c : Conn) (w1 : World)
        (t : Table) (req : Request) (kv : list (string * json)) (i : Z)
        (r : Row) (rest : list Row) :
  is_json req = true ->
  json_loads req = Some (JObj kv) ->
  assoc "name" kv = Some (JStr "") ->
  supplied "description" kv = false ->
  get_db_connection default_retries w = (Ok c, w1) ->
  db w = Some t ->
  filter (has_id i) (rows t) = r :: rest ->
  create_item req w
  = (Ok (mkResponse 400 (error_body "Item name is required")), w)
  /\
  exists w',
    update_item req i w
    = (Ok (mkResponse 200 (item_json (mkRow (id r) "" (description r)))), w')
    /\ db w' = Some (updated_table (Some "") None i t)
    /\ In (mkRow (id r) "" (description r))
          (rows (updated_table (Some "") None i t)).
Proof.
  intros Hj Hl Hn Hd H Hdb Hf.
  assert (Hfield : field "name" kv = JStr "").
  { unfold field. now rewrite Hn. }
  split.
  - rewrite (create_item_unnamed req kv w Hj Hl).
    + now rewrite (truthy_dict _ _ _ Hn).
    + now rewrite Hfield.
  - assert (Hs : supplied "name" kv || supplied "description" kv = true).
    { unfold supplied at 1. now rewrite Hfield. }
    rewrite (update_item_statement req kv i w Hj Hl Hs).
    pose proof (write_round_trip_cases RealDictCursor
                  (spec_update_text (supplied "name" kv) (supplied "description" kv))
                  (spec_update_values kv i) found_or_404 _ w
                  found_or_404_returns) as Hc.
    assert (Hname : supplied_field "name" kv = Some (JStr "")).
    { unfold supplied_field, supplied. now rewrite Hfield. }
    rewrite H, spec_update_run, Hdb in Hc by exact Hs.
    rewrite (supplied_field_none _ _ Hd), Hname in Hc.
    change (bound_field (coerce w) (Some (JStr ""))
              (fun nm => bound_field (coerce w) None
                 (fun de => need_table (Some t) (run_update nm de (JInt i)))))
      with (run_update (Some (Some "")) None (JInt i) t) in Hc.
    rewrite run_update_name_only in Hc by (cbn; lia).
    destruct Hc as (w' & Hc & Hd' & _).
    exists w'. split; [|split; [exact Hd'|]].
    + rewrite Hc. cbn [rs_rows]. rewrite Hf. reflexivity.
    + cbn [updated_table rows].
      assert (Hin : In r (filter (has_id i) (rows t)))
        by (rewrite Hf; now left).
      apply filter_In in Hin as [Hin Hid].
      apply in_map_iff. exists r. rewrite Hid. split; [reflexivity|exact Hin].
Qed.

Lemma update_accepts_empty_name_witness :
  let w := sample_world database_up (Some three_items) in
  let req := json_request [("name", JStr "")] in
  create_item req w
  = (Ok (mkResponse 400 (error_body "Item name is required")), w)
  /\
  exists w',
    update_item req 2 w = (Ok (mkResponse 200 (item_json (mkRow 2 "" (Some "")))), w')
    /\ db w' = Some (updated_table (Some "") None 2 three_items)
    /\ In (mkRow 2 "" (Some ""))
          (rows (updated_table (Some "") None 2 three_items)).
Proof.
  exact (update_accepts_empty_name
           (sample_world database_up (Some three_items)) 0%nat _ three_items
           (json_request [("name", JStr "")]) [("name", JStr "")] 2
           (mkRow 2 "fig" (Some "")) []
           eq_refl eq_refl eq_refl eq_refl eq_refl eq_refl eq_refl).
Defined.

(** ** Where the code falls short *)

(** C2, on the code.  [POST /items] with the JSON content type and a
    body that [json.loads] cannot read, the empty body included, makes
    [get_json] raise [BadRequest]; the handler's own [except Exception]
    catches it and answers 500, not 400.  No connection is made. *)
Theorem create_item_unreadable_body (req : Request) (w : World) :
  is_json req = true ->
  json_loads req = None ->
  create_item req w = (Ok (mkResponse 500 (error_body (str bad_request))), w).
Proof.
  intros Hj Hl. unfold create_item. apply py_def_untouched.
  erewrite try_except_raise.
  2:{ apply bind_raise. unfold request_get_json. rewrite Hj, Hl. reflexivity. }
  reflexivity.
Qed.

Lemma create_item_unreadable_body_witness :
  create_item (mkRequest true None) (sample_world database_up (Some three_items))
  = (Ok (mkResponse 500 (error_body (str bad_request))),
     sample_world database_up (Some three_items)).
Proof.
  exact (create_item_unreadable_body (mkRequest true None)
           (sample_world database_up (Some three_items)) eq_refl eq_refl).
Defined.

(** Where the body is turned away with 400: when [get_json] returns
    something falsy, which for a request without the JSON content type
    happens only under the oldest of the three behaviours. *)
Lemma create_item_not_json (req : Request) (w : World) :
  is_json req = false ->
  status_of (create_item req w)
  = match flask_non_json w with
    | ReturnNone => Some 400
    | _ => Some 500
    end.
Proof.
  intros Hj. unfold status_of, create_item, py_def, try_except, bind at 1,
    request_get_json. rewrite Hj.
  destruct (flask_non_json w); reflexivity.
Qed.



(** ** The invariant of the store *)

Lemma ids_from_sequence_by_ids t t' :
  map id (rows t') = map id (rows t) ->
  last_value t' = last_value t ->
  ids_from_sequence t -> ids_from_sequence t'.
Proof.
  intros Hm Hl [Hpos Hids]. split; [now rewrite Hl|].
  intros r Hr. rewrite Hl.
  apply (in_map id) in Hr. rewrite Hm in Hr.
  apply in_map_iff in Hr. destruct Hr as (r0 & <- & Hr0). now apply Hids.
Qed.

Lemma run_update_keeps_ids nm d i t d' rs :
  run_update nm d i t = inr (d', rs) ->
  ids_from_sequence t -> store_ok d'.
Proof.
  intros H Hok.
  pose proof (run_update_frame _ _ _ _ _ _ H) as (Hi & _ & _).
  unfold run_update in H.
  repeat match type of H with
         | match ?x with _ => _ end = _ => destruct x eqn:?; try discriminate H
         end.
  injection H as <- <-. cbn [column rows] in Hi. injection Hi as Hi.
  cbn [store_ok]. now apply (ids_from_sequence_by_ids t).
Qed.

Lemma run_insert_keeps_ids a d t d' rs :
  run_insert a d t = inr (d', rs) ->
  ids_from_sequence t -> store_ok d'.
Proof.
  unfold run_insert. intros H [Hpos Hids].
  repeat match type of H with
         | match ?x with _ => _ end = _ => destruct x eqn:?; try discriminate H
         | (if ?x then _ else _) = _ => destruct x eqn:?; try discriminate H
         end.
  injection H as <- <-. cbn [store_ok]. split; cbn [last_value rows]; [lia|].
  intros r Hr. apply in_app_or in Hr. destruct Hr as [Hr|[<-|[]]].
  - specialize (Hids r Hr). lia.
  - cbn [id]. lia.
Qed.

(** Every statement the program can send keeps the ids within the
    sequence; so does the table [init_db] and [reset_database] create. *)
Lemma run_keeps_store_ok co stmt params d d' rs :
  run co stmt params d = inr (d', rs) ->
  store_ok d -> store_ok d'.
Proof.
  unfold run, need_table, bound. intros H Hok.
  repeat match type of H with
         | (if ?x then _ else _) = _ => destruct x; try discriminate H
         | match ?x with _ => _ end = _ => destruct x; try discriminate H
         end;
    try (injection H as <- <-; try exact Hok; try exact I;
         try (split; [reflexivity|intros r []]));
    try (eapply run_insert_keeps_ids; eassumption);
    try (eapply run_update_keeps_ids; eassumption).
  - (* CREATE TABLE IF NOT EXISTS *)
    destruct d; [exact Hok|]. split; [reflexivity|intros r []].
  - (* DELETE *)
    destruct Hok as [Hpos Hids]. split; [exact Hpos|].
    cbn [rows last_value]. intros r Hr. apply filter_In in Hr. now apply Hids.
Qed.

(** ** Sample runs *)

(** The remaining checks of the specification's list, on the sample
    world. *)

Example decimal_samples :
  decimal 0 = "0" /\ decimal 5 = "5" /\ decimal 10 = "10" /\ decimal 407 = "407".
Proof. repeat split. Qed.

Example provider_reports_each_failure :
  stdout (snd (get_db_connection default_retries
                 (sample_world database_down None)))
  = ["Database connection failed. Attempt 1 of 5";
     "Database connection failed. Attempt 2 of 5";
     "Database connection failed. Attempt 3 of 5";
     "Database connection failed. Attempt 4 of 5";
     "Database connection failed. Attempt 5 of 5"].
Proof. vm_compute. reflexivity. Qed.

Example delete_missing_item :
  status_of (delete_item 99999 (sample_world database_up (Some three_items)))
  = Some 404.
Proof. vm_compute. reflexivity. Qed.

Example delete_then_get :
  let w := sample_world database_up (Some three_items) in
  status_of (delete_item 2 w) = Some 200 /\
  status_of (get_item 2 (snd (delete_item 2 w))) = Some 404.
Proof. vm_compute. split; reflexivity. Qed.

Example create_without_name :
  status_of (create_item (json_request [])
                         (sample_world database_up (Some three_items)))
  = Some 400.
Proof. vm_compute. reflexivity. Qed.

Example reset_then_list :
  let w := sample_world database_up (Some three_items) in
  fst (get_items (snd (reset_database w))) = Ok (mkResponse 200 (JArr [])).
Proof. vm_compute. reflexivity. Qed.

Example health_up_and_down :
  status_of (health (sample_world database_up None)) = Some 200 /\
  status_of (health (sample_world database_down None)) = Some 500.
Proof. vm_compute. split; reflexivity. Qed.

Example init_db_creates_the_table :
  let w' := snd (init_db (sample_world database_up None)) in
  db w' = Some (mkTable [] 0) /\ open_conns w' = [].
Proof. vm_compute. split; reflexivity. Qed.

Example update_rejects_long_name :
  let w := sample_world database_up (Some three_items) in
  let r := update_item (json_request [("name", JStr (replicate 256 "a"))]) 2 w in
  status_of r = Some 500 /\ db (snd r) = Some three_items.
Proof. vm_compute. split; reflexivity. Qed.

(** * Further properties *)

(** ** The routes, case by case *)

Lemma rowcount_positive (p : Row -> bool) l :
  (Z.of_nat (List.length (filter p l)) >? 0) = existsb p l.
Proof.
  induction l as [|r l IH]; [reflexivity|].
  cbn [filter existsb]. destruct (p r); cbn [orb]; [|exact IH].
  cbn [List.length]. apply Z.gtb_lt. lia.
Qed.

Lemma if_ret {A} (b : bool) (x y : A) w0 :
  (if b then ret x else ret y) w0 = (Ok (if b then x else y), w0).
Proof. destruct b; reflexivity. Qed.

Lemma run_delete co i t :
  run co sql_delete [JInt i] (Some t)
  = inr (Some (without_id i t),
         mkResultSet [] (Z.of_nat (List.length (filter (has_id i) (rows t))))).
Proof. reflexivity. Qed.

Lemma run_delete_undefined co i :
  run co sql_delete [JInt i] None = inl UndefinedTable.
Proof. reflexivity. Qed.

(** The ways out of [DELETE /items/<id>]. *)
Lemma delete_item_cases i w :
  match get_db_connection default_retries w with
  | (Raise e, w1) => delete_item i w = (Ok (error_500 e), w1)
  | (Ok c, w1) =>
      match db w with
      | None =>
          exists w',
            delete_item i w = (Ok (error_500 (store_exn w UndefinedTable)), w')
            /\ db w' = db w
            /\ open_conns w' = drop_conn c (open_conns w)
            /\ trace w' = (trace w1 ++ [EvExecute c sql_delete [JInt i];
                                        EvFinalize c])%list
      | Some t =>
          exists w',
            delete_item i w
            = (Ok (if existsb (has_id i) (rows t)
                   then jsonify (message_body "Item deleted successfully")
                   else mkResponse 404 (error_body "Item not found")), w')
            /\ db w' = Some (without_id i t)
            /\ open_conns w' = drop_conn c (open_conns w)
            /\ trace w' = (trace w1 ++ [EvExecute c sql_delete [JInt i];
                                        EvCommit c; EvClose c])%list
      end
  end.
Proof.
  unfold delete_item.
  destruct (get_db_connection default_retries w) as [[c|e] w1] eqn:H.
  - destruct (acquired _ _ _ H) as [Hs Ho].
    assert (Hpg : pg_text w1 = pg_text w) by apply Hs.
    assert (Hdb : db w1 = db w) by apply Hs.
    destruct (db w) as [t|] eqn:Hd.
    + erewrite py_def_ok.
      2:{ erewrite try_except_ok.
          2:{ rewrite (with_connection _ _ _ _ _ H).
              erewrite bind_ok by (eapply execute_ok; [exact Ho|apply run_delete]).
              cbn [cur_conn cur_factory].
              erewrite bind_ok by (eapply commit_ok; reflexivity).
              unfold bind, cur_close, ret, conn_close, effect.
              cbn [rowcount rs_rowcount]. rewrite rowcount_positive.
              apply if_ret. }
          reflexivity. }
      rewrite (release_acquired _ _ _ _ H) by reflexivity.
      rewrite finalize_closed.
      2:{ cbn [open_conns with_open with_db emit drop_conn filter fst].
          rewrite Nat.eqb_refl. cbn [negb]. apply snapshot_dropped. }
      eexists. split; [reflexivity|].
      cbn [db open_conns trace with_open with_db emit drop_conn filter fst negb].
      rewrite Nat.eqb_refl. cbn [negb].
      split; [reflexivity|]. split; [reflexivity|].
      rewrite <- !app_assoc. reflexivity.
    + erewrite py_def_ok.
      2:{ erewrite try_except_raise.
          2:{ rewrite (with_connection _ _ _ _ _ H).
              apply bind_raise.
              eapply (execute_raises (mkCursor c PlainCursor [] (-1)));
                [exact Ho|apply run_delete_undefined]. }
          reflexivity. }
      rewrite (release_acquired _ _ _ _ H) by reflexivity.
      erewrite finalize_open by (cbn [emit open_conns]; exact Ho).
      eexists. split.
      { unfold error_500, store_exn, str. cbn [msg]. rewrite Hpg. reflexivity. }
      cbn [db open_conns trace with_open emit].
      split; [exact Hdb|]. split; [reflexivity|].
      rewrite <- !app_assoc. reflexivity.
  - erewrite py_def_ok.
    2:{ erewrite try_except_raise by (apply bind_raise; exact H). reflexivity. }
    rewrite (release_not_acquired _ _ _ _ H) by reflexivity.
    reflexivity.
Qed.

Lemma run_drop co d :
  run co sql_drop [] d = inr (None, mkResultSet [] (-1)).
Proof. reflexivity. Qed.

Lemma run_create co :
  run co sql_create [] None = inr (Some empty_table, mkResultSet [] (-1)).
Proof. reflexivity. Qed.

Lemma run_create_if_not_exists co d :
  run co sql_create_if_not_exists [] d
  = inr (Some (match d with Some t => t | None => empty_table end),
         mkResultSet [] (-1)).
Proof. destruct d; reflexivity. Qed.

(** The ways out of [POST /reset]: once it has its connection it cannot
    fail. *)
Lemma reset_database_cases w :
  match get_db_connection default_retries w with
  | (Raise e, w1) => reset_database w = (Ok (error_500 e), w1)
  | (Ok c, w1) =>
      exists w',
        reset_database w
        = (Ok (mkResponse 200 (message_body "Table reset successfully")), w')
        /\ db w' = Some empty_table
        /\ open_conns w' = drop_conn c (open_conns w)
        /\ trace w' = (trace w1 ++ [EvExecute c sql_drop [];
                                    EvExecute c sql_create [];
                                    EvCommit c; EvClose c])%list
  end.
Proof.
  unfold reset_database.
  destruct (get_db_connection default_retries w) as [[c|e] w1] eqn:H.
  - destruct (acquired _ _ _ H) as [Hs Ho].
    erewrite py_def_ok.
    2:{ erewrite try_except_ok.
        2:{ rewrite (with_connection _ _ _ _ _ H).
            erewrite bind_ok by (eapply execute_ok; [exact Ho|apply run_drop]).
            cbn [cur_conn cur_factory].
            erewrite bind_ok by (eapply execute_ok; [reflexivity|apply run_create]).
            cbn [cur_conn cur_factory].
            erewrite bind_ok by (eapply commit_ok; reflexivity).
            reflexivity. }
        reflexivity. }
    rewrite (release_acquired _ _ _ _ H) by reflexivity.
    rewrite finalize_closed.
    2:{ cbn [open_conns with_open with_db emit drop_conn filter fst].
        rewrite Nat.eqb_refl. cbn [negb]. apply snapshot_dropped. }
    eexists. split; [reflexivity|].
    cbn [db open_conns trace with_open with_db emit drop_conn filter fst negb].
    rewrite Nat.eqb_refl. cbn [negb].
    split; [reflexivity|]. split; [reflexivity|].
    rewrite <- !app_assoc. reflexivity.
  - erewrite py_def_ok.
    2:{ erewrite try_except_raise by (apply bind_raise; exact H). reflexivity. }
    rewrite (release_not_acquired _ _ _ _ H) by reflexivity.
    reflexivity.
Qed.

(** The ways out of [init_db]. *)
Lemma init_db_cases w :
  match get_db_connection default_retries w with
  | (Raise e, w1) =>
      init_db w
      = (Ok false, put_line ("❌ Error creating table: " ++ str e) w1)
  | (Ok c, w1) =>
      exists w',
        init_db w = (Ok true, w')
        /\ db w' = Some (match db w with Some t => t | None => empty_table end)
        /\ open_conns w' = drop_conn c (open_conns w)
        /\ trace w' = (trace w1 ++ [EvExecute c sql_create_if_not_exists [];
                                    EvCommit c; EvClose c])%list
        /\ stdout w' = (stdout w1
                        ++ ["✅ Items table created or verified successfully"])%list
  end.
Proof.
  unfold init_db.
  destruct (get_db_connection default_retries w) as [[c|e] w1] eqn:H.
  - destruct (acquired _ _ _ H) as [Hs Ho].
    erewrite py_def_ok.
    2:{ erewrite try_except_ok.
        2:{ rewrite (with_connection _ _ _ _ _ H).
            erewrite bind_ok
              by (eapply execute_ok; [exact Ho|apply run_create_if_not_exists]).
            cbn [cur_conn cur_factory].
            erewrite bind_ok by (eapply commit_ok; reflexivity).
            reflexivity. }
        reflexivity. }
    rewrite (release_acquired _ _ _ _ H) by reflexivity.
    rewrite finalize_closed.
    2:{ cbn [open_conns with_open with_db emit put_line drop_conn filter fst].
        rewrite Nat.eqb_refl. cbn [negb]. apply snapshot_dropped. }
    eexists. split; [reflexivity|].
    cbn [db open_conns trace stdout with_open with_db emit put_line drop_conn
         filter fst negb].
    rewrite Nat.eqb_refl. cbn [negb].
    split; [reflexivity|]. split; [reflexivity|].
    split; [|reflexivity].
    rewrite <- !app_assoc. reflexivity.
  - erewrite py_def_ok.
    2:{ erewrite try_except_raise by (apply bind_raise; exact H). reflexivity. }
    rewrite (release_not_acquired _ _ _ _ H) by reflexivity.
    reflexivity.
Qed.

(** ** What the handlers do with the body *)

Lemma get_json_world req w r w' : request_get_json req w = (r, w') -> w' = w.
Proof.
  unfold request_get_json.
  destruct (is_json req); [destruct (json_loads req)|destruct (flask_non_json w)];
    intros H; injection H as _ <-; reflexivity.
Qed.

Lemma get_json_truthy req w data :
  request_get_json req w = (Ok data, w) -> truthy data = true ->
  is_json req = true /\ json_loads req = Some data.
Proof.
  unfold request_get_json.
  destruct (is_json req); [destruct (json_loads req)|destruct (flask_non_json w)];
    intros H Ht; try discriminate H; injection H as <-;
    [split; reflexivity|discriminate Ht].
Qed.

Lemma create_item_get_json_raises req w e :
  request_get_json req w = (Raise e, w) ->
  create_item req w = (Ok (error_500 e), w).
Proof.
  intros H. unfold create_item. apply py_def_untouched.
  erewrite try_except_raise by (apply bind_raise; exact H). reflexivity.
Qed.

Lemma create_item_falsy req w data :
  request_get_json req w = (Ok data, w) -> truthy data = false ->
  create_item req w
  = (Ok (mkResponse 400 (error_body "Request must contain JSON")), w).
Proof.
  intros H Ht. unfold create_item. apply py_def_untouched.
  unfold try_except.
  unfold bind at 1. rewrite H, Ht. reflexivity.
Qed.

Lemma create_item_not_dict req w data :
  request_get_json req w = (Ok data, w) -> truthy data = true ->
  not_dict data = true ->
  create_item req w = (Ok (error_500 (no_get data)), w).
Proof.
  intros H Ht Hn. unfold create_item. apply py_def_untouched.
  unfold try_except.
  unfold bind at 1. rewrite H, Ht. cbn [negb].
  unfold bind at 1.
  destruct data; try discriminate Hn; reflexivity.
Qed.

Lemma update_item_get_json_raises req i w e :
  request_get_json req w = (Raise e, w) ->
  update_item req i w = (Ok (error_500 e), w).
Proof.
  intros H. unfold update_item. apply py_def_untouched.
  erewrite try_except_raise by (apply bind_raise; exact H). reflexivity.
Qed.

Lemma update_item_falsy req i w data :
  request_get_json req w = (Ok data, w) -> truthy data = false ->
  update_item req i w
  = (Ok (mkResponse 400 (error_body "Request must contain JSON")), w).
Proof.
  intros H Ht. unfold update_item. apply py_def_untouched.
  unfold try_except.
  unfold bind at 1. rewrite H, Ht. reflexivity.
Qed.

Lemma update_item_not_dict req i w data :
  request_get_json req w = (Ok data, w) -> truthy data = true ->
  not_dict data = true ->
  update_item req i w = (Ok (error_500 (no_get data)), w).
Proof.
  intros H Ht Hn. unfold update_item. apply py_def_untouched.
  unfold try_except.
  unfold bind at 1. rewrite H, Ht. cbn [negb].
  unfold bind at 1.
  destruct data; try discriminate Hn; reflexivity.
Qed.

(** Either the body is turned away, the world untouched, or the handler
    makes its round trip to the store. *)
Lemma create_item_dispatch req w :
  (exists resp, create_item req w = (Ok resp, w) /\
                (status resp = 400 \/ status resp = 500))
  \/
  (exists nm de,
     create_item req w
     = write_round_trip RealDictCursor sql_insert [nm; de] created w).
Proof.
  destruct (request_get_json req w) as [[data|e] w0] eqn:H.
  - assert (w0 = w) by (eapply get_json_world; exact H). subst w0.
    destruct (truthy data) eqn:Ht.
    + destruct (get_json_truthy _ _ _ H Ht) as [Hj Hl].
      destruct (not_dict data) eqn:Hn.
      * left. eexists. split; [apply (create_item_not_dict _ _ _ H Ht Hn)|].
        now right.
      * destruct data; try discriminate Hn.
        destruct (truthy (field "name" kv)) eqn:Hname.
        -- right. unfold field in Hname.
           destruct (assoc "name" kv) as [nm|] eqn:Ha; [|discriminate Hname].
           do 2 eexists. apply (create_item_named _ _ _ _ Hj Hl Ha Hname).
        -- left. eexists.
           split; [apply (create_item_unnamed _ _ _ Hj Hl Hname)|]. now left.
    + left. eexists. split; [apply (create_item_falsy _ _ _ H Ht)|]. now left.
  - assert (w0 = w) by (eapply get_json_world; exact H). subst w0.
    left. eexists. split; [apply (create_item_get_json_raises _ _ _ H)|].
    now right.
Qed.

Lemma update_item_dispatch req i w :
  (exists resp, update_item req i w = (Ok resp, w) /\
                (status resp = 400 \/ status resp = 500))
  \/
  (exists kv,
     supplied "name" kv || supplied "description" kv = true /\
     update_item req i w
     = write_round_trip RealDictCursor
         (spec_update_text (supplied "name" kv) (supplied "description" kv))
         (spec_update_values kv i) found_or_404 w).
Proof.
  destruct (request_get_json req w) as [[data|e] w0] eqn:H.
  - assert (w0 = w) by (eapply get_json_world; exact H). subst w0.
    destruct (truthy data) eqn:Ht.
    + destruct (get_json_truthy _ _ _ H Ht) as [Hj Hl].
      destruct (not_dict data) eqn:Hn.
      * left. eexists. split; [apply (update_item_not_dict _ _ _ _ H Ht Hn)|].
        now right.
      * destruct data; try discriminate Hn.
        destruct (supplied "name" kv || supplied "description" kv) eqn:Hs.
        -- right. exists kv. split; [exact Hs|].
           apply (update_item_statement _ _ _ _ Hj Hl Hs).
        -- left.
           destruct (update_item_nothing_supplied _ _ i w Hj Hl Hs)
             as (resp & Hr & Hst).
           exists resp. split; [exact Hr|now left].
    + left. eexists. split; [apply (update_item_falsy _ _ _ _ H Ht)|]. now left.
  - assert (w0 = w) by (eapply get_json_world; exact H). subst w0.
    left. eexists. split; [apply (update_item_get_json_raises _ _ _ _ H)|].
    now right.
Qed.

(** ** More on the connection provider *)

Lemma slept_app t1 t2 : slept (t1 ++ t2)%list = slept t1 + slept t2.
Proof.
  induction t1 as [|e t1 IH]; [reflexivity|].
  destruct e; cbn [app slept]; rewrite IH; lia.
Qed.

Lemma connect_loop_budget n : forall r mx w res w1,
  connect_loop n r mx w = (res, w1) ->
  (attempts w <= attempts w1 <= attempts w + n)%nat /\
  exists evs, trace w1 = (trace w ++ evs)%list /\
              0 <= slept evs <= 3 * Z.of_nat n.
Proof.
  induction n as [|n IH]; intros r mx w res w1 H.
  - cbn in H. injection H as <- <-. split; [lia|].
    exists []. rewrite app_nil_r. cbn. split; [reflexivity|lia].
  - rewrite connect_loop_step in H.
    destruct (net w (attempts w)) as [|e].
    + injection H as <- <-. cbn. split; [lia|].
      eexists. split; [reflexivity|]. cbn [slept]. lia.
    + destruct (is_OperationalError e).
      * apply IH in H. destruct H as (Ha & evs & Ht & Hsl).
        cbn [backed_off attempted emit put_line with_attempts attempts trace]
          in Ha, Ht.
        split; [lia|].
        rewrite <- !app_assoc in Ht. eexists. split; [exact Ht|].
        cbn [app slept]. lia.
      * injection H as <- <-. cbn. split; [lia|].
        eexists. split; [reflexivity|]. cbn [slept]. lia.
Qed.

Lemma connect_loop_fresh n : forall r mx w c w1,
  connect_loop n r mx w = (Ok c, w1) -> (attempts w <= c)%nat.
Proof.
  induction n as [|n IH]; intros r mx w c w1 H.
  - discriminate H.
  - rewrite connect_loop_step in H.
    destruct (net w (attempts w)) as [|e].
    + injection H as <- _. lia.
    + destruct (is_OperationalError e); [|discriminate H].
      apply IH in H. cbn in H. lia.
Qed.

Lemma acquired_fresh w c w1 :
  get_db_connection default_retries w = (Ok c, w1) -> (attempts w <= c)%nat.
Proof. apply connect_loop_fresh. Qed.

(** X1.  Whatever [max_retries] is and whatever the network does, a call
    of the connection provider makes at most [max_retries] connection
    attempts, sleeps at most 3 seconds for each of them, runs no
    statement, and leaves the store as it was.  With [max_retries] = 0 it
    raises at once, the world untouched. *)
Theorem provider_stays_within_budget (max_retries : nat) (w : World) :
  let w' := snd (get_db_connection max_retries w) in
  (attempts w <= attempts w' <= attempts w + max_retries)%nat /\
  0 <= slept (new_events (get_db_connection max_retries) w)
    <= 3 * Z.of_nat max_retries /\
  statements (new_events (get_db_connection max_retries) w) = [] /\
  db w' = db w /\
  get_db_connection 0 w = (Raise exhausted, w).
Proof.
  cbn zeta.
  destruct (get_db_connection max_retries w) as [res w1] eqn:H.
  unfold get_db_connection in H.
  destruct (connect_loop_budget _ _ _ _ _ _ H) as (Ha & evs & Ht & Hsl).
  destruct (connect_loop_inv _ _ _ _ _ _ H) as (Hs & _ & evs' & Ht' & Hst & _).
  assert (evs' = evs).
  { rewrite Ht in Ht'. now apply app_inv_head in Ht'. }
  subst evs'.
  assert (Hn : new_events (get_db_connection max_retries) w = evs).
  { apply new_events_app. unfold get_db_connection. now rewrite H. }
  rewrite Hn. cbn [snd].
  split; [exact Ha|]. split; [exact Hsl|]. split; [exact Hst|].
  split; [apply Hs|reflexivity].
Qed.

(** X2.  The provider retries on [OperationalError] only.  When the
    first attempt raises anything else, that exception leaves the
    provider at once: one attempt, no sleep, no line printed; and a route
    such as [GET /items] answers 500 with its text. *)
Theorem provider_retries_operational_errors_only (n : nat) (w : World)
        (e : exn) :
  net w (attempts w) = ConnRaises e ->
  is_OperationalError e = false ->
  get_db_connection (S n) w = (Raise e, attempted w) /\
  attempts (attempted w) = S (attempts w) /\
  slept (new_events (get_db_connection (S n)) w) = 0 /\
  stdout (attempted w) = stdout w /\
  get_items w = (Ok (error_500 e), attempted w).
Proof.
  intros Hnet He.
  assert (H : forall m, get_db_connection (S m) w = (Raise e, attempted w)).
  { intros m. unfold get_db_connection. rewrite connect_loop_step, Hnet, He.
    reflexivity. }
  split; [apply H|]. split; [reflexivity|]. split.
  - erewrite new_events_app by (rewrite H; reflexivity). reflexivity.
  - split; [reflexivity|].
    pose proof (read_round_trip_cases RealDictCursor sql_select_all [] fetchall
                  listed internal_error (fun x _ => jsonify x)
                  (fun e _ => error_500 e) w
                  (fun _ _ => eq_refl) (fun _ _ => eq_refl)) as Hc.
    unfold default_retries in Hc. rewrite (H 4%nat) in Hc.
    rewrite get_items_reads. exact Hc.
Qed.

Lemma provider_retries_operational_errors_only_witness :
  let w := sample_world database_rejecting None in
  let e := mkExn ProgrammingError "invalid dsn: invalid connection option" in
  get_db_connection 5 w = (Raise e, attempted w) /\
  attempts (attempted w) = 1%nat /\
  slept (new_events (get_db_connection 5) w) = 0 /\
  stdout (attempted w) = [] /\
  get_items w = (Ok (error_500 e), attempted w).
Proof.
  exact (provider_retries_operational_errors_only 4
           (sample_world database_rejecting None) _ eq_refl eq_refl).
Defined.

(** ** What every route keeps *)

Lemma read_round_trip_db f stmt params fetch finish handler g ge w :
  (forall x w0, finish x w0 = (Ok (g x (hostname w0)), w0)) ->
  (forall e w0, handler e w0 = (Ok (ge e (hostname w0)), w0)) ->
  db (snd (read_round_trip f stmt params fetch finish handler w)) = db w.
Proof.
  intros Hfin Hh.
  pose proof (read_round_trip_cases f stmt params fetch finish handler g ge w
                Hfin Hh) as Hc.
  destruct (get_db_connection default_retries w) as [[c|e] w1] eqn:H.
  - destruct (acquired _ _ _ H) as [Hs _].
    destruct (run (coerce w) stmt params (db w)) as [e|[d' rs]].
    + destruct Hc as (w' & -> & Hd & _). exact Hd.
    + destruct Hc as (w' & -> & Hd & _). exact Hd.
  - rewrite Hc. destruct (not_acquired _ _ _ H) as [Hs _]. apply Hs.
Qed.

Lemma read_round_trip_status f stmt params fetch finish handler g ge w l :
  (forall x w0, finish x w0 = (Ok (g x (hostname w0)), w0)) ->
  (forall e w0, handler e w0 = (Ok (ge e (hostname w0)), w0)) ->
  (forall x h, In (status (g x h)) l) ->
  (forall e h, In (status (ge e h)) l) ->
  status_in l (read_round_trip f stmt params fetch finish handler w).
Proof.
  intros Hfin Hh Hg Hge.
  pose proof (read_round_trip_cases f stmt params fetch finish handler g ge w
                Hfin Hh) as Hc.
  destruct (get_db_connection default_retries w) as [[c|e] w1].
  - destruct (run (coerce w) stmt params (db w)) as [e|[d' rs]].
    + destruct Hc as (w' & -> & _). eexists. split; [reflexivity|apply Hge].
    + destruct Hc as (w' & -> & _). eexists. split; [reflexivity|apply Hg].
  - rewrite Hc. eexists. split; [reflexivity|apply Hge].
Qed.

Lemma write_round_trip_status f stmt params finish g w l :
  (forall x w0, finish x w0 = (Ok (g x), w0)) ->
  (forall x, In (status (g x)) l) ->
  In 500 l ->
  status_in l (write_round_trip f stmt params finish w).
Proof.
  intros Hfin Hg H500.
  pose proof (write_round_trip_cases f stmt params finish g w Hfin) as Hc.
  destruct (get_db_connection default_retries w) as [[c|e] w1].
  - destruct (run (coerce w) stmt params (db w)) as [e|[d' rs]].
    + destruct Hc as (w' & -> & _). eexists. split; [reflexivity|exact H500].
    + destruct Hc as (w' & -> & _). eexists. split; [reflexivity|apply Hg].
  - rewrite Hc. eexists. split; [reflexivity|exact H500].
Qed.

Lemma found_or_404_status x : In (status (found_or_404_answer x)) [200; 404; 500].
Proof. unfold found_or_404_answer. destruct (truthy x); cbn; auto. Qed.

Lemma status_in_weaken l l' r :
  (forall s, In s l -> In s l') -> status_in l r -> status_in l' r.
Proof. intros Hl (resp & H & Hin). exists resp. auto. Qed.

(** The ways out of [GET /health]: [SELECT 1] needs no table. *)
Lemma health_cases (w : World) :
  match get_db_connection default_retries w with
  | (Ok c, w1) =>
      exists w',
        health w = (Ok (mkResponse 200 (healthy_body (hostname w))), w') /\
        db w' = db w /\
        open_conns w' = drop_conn c (open_conns w)
  | (Raise e, w1) =>
      health w = (Ok (mkResponse 500 (unhealthy_body e (hostname w))), w1)
  end.
Proof.
  pose proof (read_round_trip_cases PlainCursor sql_select_1 []
                (fun _ => JNull) report_healthy report_unhealthy
                (fun _ h => jsonify (healthy_body h))
                (fun e h => mkResponse 500 (unhealthy_body e h)) w
                report_healthy_returns report_unhealthy_returns) as Hc.
  rewrite health_reads.
  destruct (get_db_connection default_retries w) as [[c|e] w1]; [|exact Hc].
  change (run (coerce w) sql_select_1 [] (db w))
    with (@inr db_error _ (db w, mkResultSet [[("?column?", JInt 1)]] 1)) in Hc.
  destruct Hc as (w' & Hh & Hd & Ho & _).
  exists w'. auto.
Qed.

(** X3.  [GET /health] reports what the connection provider says and
    nothing else: once a connection is obtained it answers 200
    [healthy], whether the [items] table exists or not, closes the
    connection and leaves the store alone; when the provider raises it
    answers 500 [unhealthy] with the text of the exception. *)
Theorem health_reports_the_provider (w : World) :
  match get_db_connection default_retries w with
  | (Ok c, w1) =>
      exists w',
        health w = (Ok (mkResponse 200 (healthy_body (hostname w))), w') /\
        db w' = db w /\
        open_conns w' = drop_conn c (open_conns w)
  | (Raise e, w1) =>
      health w = (Ok (mkResponse 500 (unhealthy_body e (hostname w))), w1)
  end.
Proof.
  pose proof (read_round_trip_cases PlainCursor sql_select_1 []
                (fun _ => JNull) report_healthy report_unhealthy
                (fun _ h => jsonify (healthy_body h))
                (fun e h => mkResponse 500 (unhealthy_body e h)) w
                report_healthy_returns report_unhealthy_returns) as Hc.
  rewrite health_reads.
  destruct (get_db_connection default_retries w) as [[c|e] w1]; [|exact Hc].
  change (run (coerce w) sql_select_1 [] (db w))
    with (@inr db_error _ (db w, mkResultSet [[("?column?", JInt 1)]] 1)) in Hc.
  destruct Hc as (w' & Hh & Hd & Ho & _).
  exists w'. auto.
Qed.

(** X4.  The reading routes never change the store, on any way out:
    [GET /], [GET /health], [GET /items] and [GET /items/<id>] leave it
    exactly as they found it. *)
Theorem reading_routes_leave_the_store (w : World) (i : Z) :
  db (snd (index w)) = db w /\
  db (snd (health w)) = db w /\
  db (snd (get_items w)) = db w /\
  db (snd (get_item i w)) = db w.
Proof.
  split; [reflexivity|]. split; [|split].
  - rewrite health_reads.
    apply (read_round_trip_db _ _ _ _ _ _
             (fun _ h => jsonify (healthy_body h))
             (fun e h => mkResponse 500 (unhealthy_body e h)) _
             report_healthy_returns report_unhealthy_returns).
  - rewrite get_items_reads.
    apply (read_round_trip_db _ _ _ _ _ _ (fun x _ => jsonify x)
             (fun e _ => error_500 e) _ listed_returns internal_error_returns).
  - rewrite get_item_reads.
    apply (read_round_trip_db _ _ _ _ _ _ (fun x _ => found_or_404_answer x)
             (fun e _ => error_500 e) _ found_or_404_returns
             internal_error_returns).
Qed.

(** X5.  Every route answers every request: no exception leaves a
    handler, and the status is one of those the handler writes down:
    200 for [GET /]; 200 or 500 for [GET /health], [GET /items] and
    [POST /reset]; 201, 400 or 500 for [POST /items]; 200, 404 or 500
    for [GET] and [DELETE /items/<id>]; 200, 400, 404 or 500 for
    [PUT /items/<id>]. *)
Theorem routes_always_answer (w : World) (req : Request) (i : Z) :
  status_in [200] (index w) /\
  status_in [200; 500] (health w) /\
  status_in [200; 500] (get_items w) /\
  status_in [201; 400; 500] (create_item req w) /\
  status_in [200; 404; 500] (get_item i w) /\
  status_in [200; 400; 404; 500] (update_item req i w) /\
  status_in [200; 404; 500] (delete_item i w) /\
  status_in [200; 500] (reset_database w).
Proof.
  split; [eexists; split; [reflexivity|now left]|].
  split.
  { rewrite health_reads.
    apply (read_round_trip_status _ _ _ _ _ _
             (fun _ h => jsonify (healthy_body h))
             (fun e h => mkResponse 500 (unhealthy_body e h)) _ _
             report_healthy_returns report_unhealthy_returns);
      intros; cbn; auto. }
  split.
  { rewrite get_items_reads.
    apply (read_round_trip_status _ _ _ _ _ _ (fun x _ => jsonify x)
             (fun e _ => error_500 e) _ _ listed_returns internal_error_returns);
      intros; cbn; auto. }
  split.
  { destruct (create_item_dispatch req w) as [(resp & -> & [Hs|Hs])|(nm & de & ->)].
    - exists resp. split; [reflexivity|]. rewrite Hs. cbn; auto.
    - exists resp. split; [reflexivity|]. rewrite Hs. cbn; auto.
    - apply (write_round_trip_status _ _ _ _ (fun x => with_status (jsonify x) 201));
        [reflexivity|intros; cbn; auto|cbn; auto]. }
  split.
  { rewrite get_item_reads.
    apply (read_round_trip_status _ _ _ _ _ _ (fun x _ => found_or_404_answer x)
             (fun e _ => error_500 e) _ _ found_or_404_returns
             internal_error_returns);
      intros; [apply found_or_404_status|cbn; auto]. }
  split.
  { destruct (update_item_dispatch req i w) as [(resp & -> & [Hs|Hs])|(kv & _ & ->)].
    - exists resp. split; [reflexivity|]. rewrite Hs. cbn; auto.
    - exists resp. split; [reflexivity|]. rewrite Hs. cbn; auto.
    - apply (write_round_trip_status _ _ _ _ found_or_404_answer);
        [apply found_or_404_returns| |cbn; auto].
      intros x. pose proof (found_or_404_status x) as Hx. cbn in *. tauto. }
  split.
  { pose proof (delete_item_cases i w) as Hc.
    destruct (get_db_connection default_retries w) as [[c|e] w1].
    - destruct (db w) as [t|].
      + destruct Hc as (w' & -> & _). eexists. split; [reflexivity|].
        destruct (existsb (has_id i) (rows t)); cbn; auto.
      + destruct Hc as (w' & -> & _). eexists. split; [reflexivity|cbn; auto].
    - rewrite Hc. eexists. split; [reflexivity|cbn; auto]. }
  pose proof (reset_database_cases w) as Hc.
  destruct (get_db_connection default_retries w) as [[c|e] w1].
  - destruct Hc as (w' & -> & _). eexists. split; [reflexivity|cbn; auto].
  - rewrite Hc. eexists. split; [reflexivity|cbn; auto].
Qed.

(** ** When the database cannot be reached *)

(** X6.  When each of the 5 attempts fails with an [OperationalError],
    every route that needs the database answers 500 with the text of the
    exhaustion error ([GET /health] in its [unhealthy] form) after 15
    seconds of sleep, and leaves the world as the provider left it: the
    store unchanged, no connection opened. *)
Theorem unreachable_database_answers_500 (w : World) (i : Z) :
  (forall j, (j < 5)%nat -> transient (net w (attempts w + j)) = true) ->
  exists w',
    get_db_connection default_retries w = (Raise exhausted, w') /\
    get_items w = (Ok (error_500 exhausted), w') /\
    get_item i w = (Ok (error_500 exhausted), w') /\
    delete_item i w = (Ok (error_500 exhausted), w') /\
    reset_database w = (Ok (error_500 exhausted), w') /\
    health w = (Ok (mkResponse 500 (unhealthy_body exhausted (hostname w))), w') /\
    slept (new_events get_items w) = 15 /\
    db w' = db w /\ open_conns w' = open_conns w.
Proof.
  intros Hall.
  destruct (connect_loop_exhausted 5 0 5 w Hall) as (w' & Hr & Ht & _ & Ho & Hs).
  change (connect_loop 5 0 5 w) with (get_db_connection default_retries w) in Hr.
  exists w'. split; [exact Hr|].
  assert (Hg : get_items w = (Ok (error_500 exhausted), w')).
  { pose proof (read_round_trip_cases RealDictCursor sql_select_all [] fetchall
                  listed internal_error (fun x _ => jsonify x)
                  (fun e _ => error_500 e) w
                  listed_returns internal_error_returns) as Hc.
    rewrite Hr in Hc. rewrite get_items_reads. exact Hc. }
  split; [exact Hg|]. split.
  { pose proof (read_round_trip_cases RealDictCursor sql_select_by_id [JInt i]
                  fetchone found_or_404 internal_error
                  (fun x _ => found_or_404_answer x)
                  (fun e _ => error_500 e) w
                  found_or_404_returns internal_error_returns) as Hc.
    rewrite Hr in Hc. rewrite get_item_reads. exact Hc. }
  split.
  { pose proof (delete_item_cases i w) as Hc. rewrite Hr in Hc. exact Hc. }
  split.
  { pose proof (reset_database_cases w) as Hc. rewrite Hr in Hc. exact Hc. }
  split.
  { pose proof (health_reads) as Hh.
    pose proof (read_round_trip_cases PlainCursor sql_select_1 []
                  (fun _ => JNull) report_healthy report_unhealthy
                  (fun _ h => jsonify (healthy_body h))
                  (fun e h => mkResponse 500 (unhealthy_body e h)) w
                  report_healthy_returns report_unhealthy_returns) as Hc.
    rewrite Hr in Hc. rewrite Hh. exact Hc. }
  split.
  { erewrite new_events_app by (rewrite Hg; cbn [snd]; exact Ht).
    unfold failed_attempts. cbn [seq flat_map app slept]. reflexivity. }
  split; [apply Hs|exact Ho].
Qed.

Lemma unreachable_database_answers_500_witness :
  let w := sample_world database_down (Some three_items) in
  exists w',
    get_db_connection default_retries w = (Raise exhausted, w') /\
    get_items w = (Ok (error_500 exhausted), w') /\
    get_item 2 w = (Ok (error_500 exhausted), w') /\
    delete_item 2 w = (Ok (error_500 exhausted), w') /\
    reset_database w = (Ok (error_500 exhausted), w') /\
    health w = (Ok (mkResponse 500 (unhealthy_body exhausted (hostname w))), w') /\
    slept (new_events get_items w) = 15 /\
    db w' = db w /\ open_conns w' = open_conns w.
Proof.
  apply (unreachable_database_answers_500
           (sample_world database_down (Some three_items)) 2).
  intros j _. reflexivity.
Defined.

(** ** [POST /items], in general *)

Lemma plain_description_adapt co kv dv :
  plain_description kv = Some dv ->
  adapt co (match assoc "description" kv with
            | Some v => v
            | None => JStr ""
            end) = inr dv.
Proof.
  unfold plain_description.
  destruct (assoc "description" kv) as [v|].
  - destruct v; try discriminate.
    + intros H. injection H as <-. reflexivity.
    + cbn [adapt]. destruct (has_nul s); [discriminate|].
      intros H. injection H as <-. reflexivity.
  - intros H. injection H as <-. reflexivity.
Qed.



(** X8.  [POST /items] turns a body away before it asks for a
    connection: a decoded body that is falsy ([null], [false], 0, the
    empty string, list or object) gets 400 "Request must contain JSON",
    and an object whose [name] is absent or falsy gets 400 "Item name is
    required".  In both cases the world is untouched: no attempt, no
    statement, nothing printed. *)
Theorem create_item_validates_first (req : Request) (data : json) (w : World) :
  is_json req = true ->
  json_loads req = Some data ->
  (truthy data = false ->
   create_item req w
   = (Ok (mkResponse 400 (error_body "Request must contain JSON")), w))
  /\
  (forall kv, data = JObj kv -> kv <> [] ->
     truthy (field "name" kv) = false ->
     create_item req w
     = (Ok (mkResponse 400 (error_body "Item name is required")), w)).
Proof.
  intros Hj Hl. split.
  - intros Ht. apply (create_item_falsy req w data); [|exact Ht].
    unfold request_get_json. now rewrite Hj, Hl.
  - intros kv -> Hne Hn.
    rewrite (create_item_unnamed req kv w Hj Hl Hn).
    destruct kv; [contradiction|reflexivity].
Qed.

Lemma create_item_validates_first_witness :
  let w := sample_world database_up (Some three_items) in
  let data := JObj [("description", JStr "no name")] in
  (truthy data = false ->
   create_item (mkRequest true (Some data)) w
   = (Ok (mkResponse 400 (error_body "Request must contain JSON")), w))
  /\
  (forall kv, data = JObj kv -> kv <> [] ->
     truthy (field "name" kv) = false ->
     create_item (mkRequest true (Some data)) w
     = (Ok (mkResponse 400 (error_body "Item name is required")), w)).
Proof.
  exact (create_item_validates_first
           (mkRequest true (Some (JObj [("description", JStr "no name")])))
           (JObj [("description", JStr "no name")])
           (sample_world database_up (Some three_items)) eq_refl eq_refl).
Defined.

(** X9.  A JSON body that is truthy but not an object (a non-empty list
    or string, a non-zero number, [true]) is not turned away with 400:
    [data.get] raises [AttributeError], and both [POST /items] and
    [PUT /items/<id>] answer 500 with its text, without asking for a
    connection. *)
Theorem non_object_body_answers_500 (req : Request) (data : json) (i : Z)
        (w : World) :
  is_json req = true ->
  json_loads req = Some data ->
  truthy data = true ->
  not_dict data = true ->
  create_item req w = (Ok (error_500 (no_get data)), w) /\
  update_item req i w = (Ok (error_500 (no_get data)), w).
Proof.
  intros Hj Hl Ht Hn.
  assert (H : request_get_json req w = (Ok data, w)).
  { unfold request_get_json. now rewrite Hj, Hl. }
  split.
  - apply (create_item_not_dict _ _ _ H Ht Hn).
  - apply (update_item_not_dict _ _ _ _ H Ht Hn).
Qed.

Lemma non_object_body_answers_500_witness :
  let w := sample_world database_up (Some three_items) in
  let data := JArr [JStr "foo"] in
  create_item (mkRequest true (Some data)) w
  = (Ok (mkResponse 500
           (error_body "'list' object has no attribute 'get'")), w) /\
  update_item (mkRequest true (Some data)) 2 w
  = (Ok (mkResponse 500
           (error_body "'list' object has no attribute 'get'")), w).
Proof.
  exact (non_object_body_answers_500
           (mkRequest true (Some (JArr [JStr "foo"]))) (JArr [JStr "foo"]) 2
           (sample_world database_up (Some three_items))
           eq_refl eq_refl eq_refl eq_refl).
Defined.

(** ** [DELETE /items/<id>] *)

Lemma filter_none {A} (p : A -> bool) l :
  existsb p l = false -> filter (fun x => negb (p x)) l = l.
Proof.
  induction l as [|x l IH]; [reflexivity|].
  cbn [existsb filter]. intros H. apply orb_false_iff in H as [Hx Hl].
  rewrite Hx. cbn [negb]. now rewrite IH.
Qed.

Lemma filter_gone n l : filter (has_id n) (filter (fun r => negb (has_id n r)) l) = [].
Proof.
  induction l as [|r l IH]; [reflexivity|].
  cbn [filter]. destruct (has_id n r) eqn:E; cbn [negb filter]; [exact IH|].
  now rewrite E.
Qed.

(** X10.  With a connection and the table in place, [DELETE
    /items/<id>] removes exactly the rows with that id and keeps every
    other row, in order, and the sequence; it answers 200 when there was
    such a row and 404 when there was none, in which case the table is
    as it was.  The connection is closed either way. *)
Theorem delete_item_removes_the_row (w : World) (c : Conn) (w1 : World)
        (t : Table) (i : Z) :
  get_db_connection default_retries w = (Ok c, w1) ->
  db w = Some t ->
  exists w',
    delete_item i w
    = (Ok (if existsb (has_id i) (rows t)
           then mkResponse 200 (message_body "Item deleted successfully")
           else mkResponse 404 (error_body "Item not found")), w') /\
    db w' = Some (without_id i t) /\
    (forall r, In r (rows (without_id i t)) <-> In r (rows t) /\ id r <> i) /\
    last_value (without_id i t) = last_value t /\
    (existsb (has_id i) (rows t) = false -> without_id i t = t) /\
    open_conns w' = drop_conn c (open_conns w).
Proof.
  intros H Hd. pose proof (delete_item_cases i w) as Hc.
  rewrite H, Hd in Hc. destruct Hc as (w' & Hc & Hd' & Ho & _).
  exists w'. split; [exact Hc|]. split; [exact Hd'|]. split.
  - intros r. cbn [without_id rows]. rewrite filter_In. unfold has_id.
    rewrite negb_true_iff, Z.eqb_neq. reflexivity.
  - split; [reflexivity|]. split; [|exact Ho].
    intros He. unfold without_id. rewrite (filter_none _ _ He).
    now destruct t.
Qed.

Lemma delete_item_removes_the_row_witness :
  let w := sample_world database_up (Some three_items) in
  exists w',
    delete_item 1 w
    = (Ok (if existsb (has_id 1) (rows three_items)
           then mkResponse 200 (message_body "Item deleted successfully")
           else mkResponse 404 (error_body "Item not found")), w') /\
    db w' = Some (without_id 1 three_items) /\
    (forall r, In r (rows (without_id 1 three_items))
               <-> In r (rows three_items) /\ id r <> 1) /\
    last_value (without_id 1 three_items) = last_value three_items /\
    (existsb (has_id 1) (rows three_items) = false ->
     without_id 1 three_items = three_items) /\
    open_conns w' = drop_conn 0%nat [].
Proof.
  exact (delete_item_removes_the_row
           (sample_world database_up (Some three_items)) 0%nat _ three_items 1
           eq_refl eq_refl).
Defined.

(** X11.  After [DELETE /items/<id>] has been served on an existing
    table, [GET /items/<id>] for the same id answers 404 and a second
    [DELETE] answers 404 too, whether the first one found the item or
    not. *)
Theorem delete_then_get_or_delete_is_404 (w : World) (c : Conn) (w1 : World)
        (t : Table) (i : Z) :
  get_db_connection default_retries w = (Ok c, w1) ->
  db w = Some t ->
  let w' := snd (delete_item i w) in
  forall c' w1',
    get_db_connection default_retries w' = (Ok c', w1') ->
    fst (get_item i w') = Ok (mkResponse 404 (error_body "Item not found")) /\
    fst (delete_item i w') = Ok (mkResponse 404 (error_body "Item not found")).
Proof.
  intros H Hd w' c' w1' H'. subst w'.
  pose proof (delete_item_cases i w) as Hc.
  rewrite H, Hd in Hc. destruct Hc as (w' & Hc & Hd' & _).
  rewrite Hc in *. cbn [snd] in *.
  split.
  - destruct (get_item_missing i w' c' w1' (without_id i t) H' Hd')
      as (w'' & -> & _); [apply filter_gone|reflexivity].
  - pose proof (delete_item_cases i w') as Hc'.
    rewrite H', Hd' in Hc'. destruct Hc' as (w'' & -> & _).
    cbn [fst]. rewrite <- rowcount_positive.
    cbn [without_id rows]. now rewrite filter_gone.
Qed.

Lemma sample_after_delete_acquired :
  let w' := snd (delete_item 3 (sample_world database_up (Some three_items))) in
  get_db_connection default_retries w'
  = (Ok 1%nat, snd (get_db_connection default_retries w')).
Proof. vm_compute. reflexivity. Qed.

Lemma delete_then_get_or_delete_is_404_witness :
  let w := sample_world database_up (Some three_items) in
  let w' := snd (delete_item 3 w) in
  fst (get_item 3 w') = Ok (mkResponse 404 (error_body "Item not found")) /\
  fst (delete_item 3 w') = Ok (mkResponse 404 (error_body "Item not found")).
Proof.
  exact (delete_then_get_or_delete_is_404
           (sample_world database_up (Some three_items)) 0%nat _ three_items 3
           eq_refl eq_refl 1%nat _ sample_after_delete_acquired).
Defined.

Lemma run_insert_plain co s kv dv t :
  storable_name s ->
  plain_description kv = Some dv ->
  existsb (has_id (last_value t + 1)) (rows t) = false ->
  run co sql_insert
      [JStr s; match assoc "description" kv with
               | Some v => v
               | None => JStr ""
               end] (Some t)
  = inr (Some (mkTable (rows t ++ [mkRow (last_value t + 1) s dv])
                       (last_value t + 1)),
         mkResultSet [row_record (mkRow (last_value t + 1) s dv)] 1).
Proof.
  intros [Hnul Hlen] Hd He.
  rewrite run_insert_eq. unfold bound.
  rewrite (plain_description_adapt _ _ _ Hd).
  cbn [adapt]. rewrite Hnul. cbn [need_table].
  unfold run_insert, name_value, varchar255.
  apply Nat.leb_le in Hlen. rewrite Hlen, He. reflexivity.
Qed.

Lemma truthy_nonempty s : s <> "" -> truthy (JStr s) = true.
Proof.
  intros H. cbn [truthy]. destruct (String.eqb_spec s ""); [contradiction|reflexivity].
Qed.



(** ** [POST /reset] and [init_db] *)

(** X13.  With a connection, [POST /reset] cannot fail: whatever the
    store holds, the table missing included, it answers 200, leaves an
    empty [items] table with a new sequence, and closes its connection.
    [GET /items], served next, answers 200 with the empty list. *)
Theorem reset_database_empties_the_store (w : World) (c : Conn) (w1 : World) :
  get_db_connection default_retries w = (Ok c, w1) ->
  exists w',
    reset_database w
    = (Ok (mkResponse 200 (message_body "Table reset successfully")), w') /\
    db w' = Some empty_table /\
    open_conns w' = drop_conn c (open_conns w) /\
    forall c' w1',
      get_db_connection default_retries w' = (Ok c', w1') ->
      fst (get_items w') = Ok (mkResponse 200 (JArr [])).
Proof.
  intros H. pose proof (reset_database_cases w) as Hc. rewrite H in Hc.
  destruct Hc as (w' & Hc & Hd & Ho & _).
  exists w'. split; [exact Hc|]. split; [exact Hd|]. split; [exact Ho|].
  intros c' w1' H'.
  pose proof (read_round_trip_cases RealDictCursor sql_select_all [] fetchall
                listed internal_error (fun x _ => jsonify x)
                (fun e _ => error_500 e) w'
                listed_returns internal_error_returns) as Hg.
  rewrite H', Hd in Hg.
  change (run (coerce w') sql_select_all [] (Some empty_table))
    with (@inr db_error _ (Some empty_table, mkResultSet [] 0)) in Hg.
  destruct Hg as (w'' & Hg & _). rewrite get_items_reads, Hg. reflexivity.
Qed.

Lemma reset_database_empties_the_store_witness :
  let w := sample_world database_up None in
  exists w',
    reset_database w
    = (Ok (mkResponse 200 (message_body "Table reset successfully")), w') /\
    db w' = Some empty_table /\
    open_conns w' = drop_conn 0%nat [] /\
    forall c' w1',
      get_db_connection default_retries w' = (Ok c', w1') ->
      fst (get_items w') = Ok (mkResponse 200 (JArr [])).
Proof.
  exact (reset_database_empties_the_store (sample_world database_up None)
           0%nat _ eq_refl).
Defined.

(** X14.  [POST /reset] restarts the numbering: whatever ids the table
    held, the first item created after a reset gets id 1. *)
Theorem reset_restarts_the_ids (w : World) (c : Conn) (w1 : World)
        (req : Request) (kv : list (string * json)) (s : string)
        (dv : option string) :
  get_db_connection default_retries w = (Ok c, w1) ->
  is_json req = true ->
  json_loads req = Some (JObj kv) ->
  assoc "name" kv = Some (JStr s) ->
  s <> "" ->
  storable_name s ->
  plain_description kv = Some dv ->
  let w' := snd (reset_database w) in
  forall c' w1',
    get_db_connection default_retries w' = (Ok c', w1') ->
    exists w'',
      create_item req w' = (Ok (mkResponse 201 (item_json (mkRow 1 s dv))), w'') /\
      db w'' = Some (mkTable [mkRow 1 s dv] 1).
Proof.
  intros H Hj Hl Hn Hne Hst Hde w' c' w1' H'. subst w'.
  pose proof (reset_database_cases w) as Hc. rewrite H in Hc.
  destruct Hc as (w' & Hc & Hd & _). rewrite Hc in *. cbn [snd] in *.
  destruct (create_item_inserted req kv (JStr s) w' c' w1' empty_table
              _ _ Hj Hl Hn (truthy_nonempty s Hne) H' Hd
              (run_insert_plain _ s kv dv empty_table Hst Hde eq_refl))
    as (w'' & Hcr & Hd'' & _).
  exists w''. split; [exact Hcr|exact Hd''].
Qed.

Lemma sample_after_reset_acquired :
  let w' := snd (reset_database (sample_world database_up (Some three_items))) in
  get_db_connection default_retries w'
  = (Ok 1%nat, snd (get_db_connection default_retries w')).
Proof. vm_compute. reflexivity. Qed.

Lemma reset_restarts_the_ids_witness :
  let w := sample_world database_up (Some three_items) in
  let req := json_request [("name", JStr "kiwi")] in
  let w' := snd (reset_database w) in
  exists w'',
    create_item req w'
    = (Ok (mkResponse 201 (item_json (mkRow 1 "kiwi" (Some "")))), w'') /\
    db w'' = Some (mkTable [mkRow 1 "kiwi" (Some "")] 1).
Proof.
  refine (reset_restarts_the_ids
            (sample_world database_up (Some three_items)) 0%nat _
            (json_request [("name", JStr "kiwi")]) [("name", JStr "kiwi")]
            "kiwi" (Some "") eq_refl eq_refl eq_refl eq_refl _
            (conj eq_refl _) eq_refl 1%nat _ sample_after_reset_acquired).
  - discriminate.
  - repeat constructor.
Defined.

(** X15.  [init_db] returns [True] exactly when the provider gives it a
    connection.  It then creates the empty table if there is none and
    leaves an existing table as it is, rows and sequence, and closes its
    connection; run again, it changes nothing in the store.  When the provider raises it prints the error
    and returns [False], the store untouched. *)
Theorem init_db_is_idempotent (w : World) :
  match get_db_connection default_retries w with
  | (Ok c, w1) =>
      exists w',
        init_db w = (Ok true, w') /\
        db w' = Some (match db w with Some t => t | None => empty_table end) /\
        open_conns w' = drop_conn c (open_conns w) /\
        forall c' w1',
          get_db_connection default_retries w' = (Ok c', w1') ->
          fst (init_db w') = Ok true /\ db (snd (init_db w')) = db w'
  | (Raise e, w1) =>
      init_db w = (Ok false, put_line ("❌ Error creating table: " ++ str e) w1)
      /\ db w1 = db w
  end.
Proof.
  pose proof (init_db_cases w) as Hc.
  destruct (get_db_connection default_retries w) as [[c|e] w1] eqn:H.
  - destruct Hc as (w' & Hc & Hd & Ho & _).
    exists w'. split; [exact Hc|]. split; [exact Hd|]. split; [exact Ho|].
    intros c' w1' H'. pose proof (init_db_cases w') as Hc'.
    rewrite H' in Hc'. destruct Hc' as (w'' & -> & Hd'' & _).
    cbn [fst snd]. split; [reflexivity|]. rewrite Hd'', Hd. reflexivity.
  - split; [exact Hc|]. destruct (not_acquired _ _ _ H) as [Hs _]. apply Hs.
Qed.

(** ** [GET /items/<id>] and [PUT /items/<id>], in general *)

Lemma filter_unique n r l :
  NoDup (map id l) -> In r l -> id r = n -> filter (has_id n) l = [r].
Proof.
  induction l as [|x l IH]; intros Hnd Hin Hid; [destruct Hin|].
  cbn [map] in Hnd. inversion Hnd as [|? ? Hx Hnd']; subst.
  cbn [filter]. destruct Hin as [->|Hin].
  - unfold has_id at 1. rewrite Z.eqb_refl. f_equal.
    assert (Hno : existsb (has_id (id r)) l = false).
    { apply not_true_is_false. intros He. apply existsb_exists in He.
      destruct He as (y & Hy & Hyid). apply Z.eqb_eq in Hyid.
      apply Hx. rewrite <- Hyid. now apply in_map. }
    clear -Hno. induction l as [|y l IH]; [reflexivity|].
    cbn [existsb filter] in *. apply orb_false_iff in Hno as [-> Hl]. auto.
  - destruct (has_id (id r) x) eqn:E.
    + apply Z.eqb_eq in E. exfalso. apply Hx. rewrite E. now apply in_map.
    + now apply IH.
Qed.

Lemma filter_absent n l :
  (forall r, In r l -> id r <> n) -> filter (has_id n) l = [].
Proof.
  induction l as [|x l IH]; intros H; [reflexivity|].
  cbn [filter]. destruct (has_id n x) eqn:E.
  - apply Z.eqb_eq in E. exfalso. apply (H x); [now left|exact E].
  - apply IH. intros r Hr. apply H. now right.
Qed.

(** X16.  With a connection and a table whose ids are distinct,
    [GET /items/<id>] answers 200 with the row that has that id when the
    table holds one, and 404 when no row has it. *)
Theorem get_item_finds_the_row (w : World) (c : Conn) (w1 : World)
        (t : Table) (i : Z) :
  get_db_connection default_retries w = (Ok c, w1) ->
  db w = Some t ->
  NoDup (map id (rows t)) ->
  (forall r, In r (rows t) -> id r = i ->
             fst (get_item i w) = Ok (mkResponse 200 (item_json r)))
  /\
  ((forall r, In r (rows t) -> id r <> i) ->
   fst (get_item i w) = Ok (mkResponse 404 (error_body "Item not found"))).
Proof.
  intros H Hd Hnd. split.
  - intros r Hr Hid.
    destruct (get_item_found i w c w1 t r [] H Hd) as (w' & -> & _);
      [now apply filter_unique|reflexivity].
  - intros Hno.
    destruct (get_item_missing i w c w1 t H Hd) as (w' & -> & _);
      [now apply filter_absent|reflexivity].
Qed.

Lemma three_items_distinct : NoDup (map id (rows three_items)).
Proof.
  cbn. repeat constructor; cbn; intuition discriminate.
Defined.

Lemma get_item_finds_the_row_witness :
  let w := sample_world database_up (Some three_items) in
  (forall r, In r (rows three_items) -> id r = 1 ->
             fst (get_item 1 w) = Ok (mkResponse 200 (item_json r)))
  /\
  ((forall r, In r (rows three_items) -> id r <> 1) ->
   fst (get_item 1 w) = Ok (mkResponse 404 (error_body "Item not found"))).
Proof.
  exact (get_item_finds_the_row (sample_world database_up (Some three_items))
           0%nat _ three_items 1 eq_refl eq_refl three_items_distinct).
Defined.

Lemma run_update_both_plain s d i t :
  (String.length s <= 255)%nat ->
  run_update (Some (Some s)) (Some (Some d)) (JInt i) t
  = inr (Some (updated_table (Some s) (Some (Some d)) i t),
         mkResultSet
           (map row_record
                (map (updated (Some s) (Some (Some d)))
                     (filter (has_id i) (rows t))))
           (Z.of_nat (List.length
                        (map (updated (Some s) (Some (Some d)))
                             (filter (has_id i) (rows t)))))).
Proof.
  intros Hlen. unfold run_update, name_value, varchar255.
  apply Nat.leb_le in Hlen. rewrite Hlen.
  pose proof (update_rows_sets (Some s) (Some (Some d)) i (rows t)) as Hu.
  cbn [option_map] in Hu. rewrite Hu. reflexivity.
Qed.

Lemma updated_table_absent nm d i t :
  filter (has_id i) (rows t) = [] -> updated_table nm d i t = t.
Proof.
  intros H. unfold updated_table.
  assert (Hm : map (fun r => if has_id i r then updated nm d r else r) (rows t)
               = rows t).
  { revert H. generalize (rows t). induction l as [|r l IH]; [reflexivity|].
    cbn [filter map]. destruct (has_id i r); [discriminate|].
    intros H. now rewrite IH. }
  rewrite Hm. now destruct t.
Qed.

(** X17.  With a connection and the table in place, [PUT /items/<id>]
    with a name the store can hold (the empty string included) and a
    string for a description sets both columns of the rows with that id
    and of no other row.  It answers 200 with the row as it now is when
    there is one, and 404 when there is none, in which case the table is
    as it was. *)
Theorem update_item_sets_both_fields (w : World) (c : Conn) (w1 : World)
        (t : Table) (req : Request) (kv : list (string * json)) (i : Z)
        (s d : string) :
  is_json req = true ->
  json_loads req = Some (JObj kv) ->
  assoc "name" kv = Some (JStr s) ->
  assoc "description" kv = Some (JStr d) ->
  storable_name s ->
  has_nul d = false ->
  get_db_connection default_retries w = (Ok c, w1) ->
  db w = Some t ->
  exists w',
    update_item req i w
    = (Ok (match filter (has_id i) (rows t) with
           | r :: _ => mkResponse 200 (item_json (mkRow (id r) s (Some d)))
           | [] => mkResponse 404 (error_body "Item not found")
           end), w') /\
    db w' = Some (updated_table (Some s) (Some (Some d)) i t) /\
    (filter (has_id i) (rows t) = [] ->
     updated_table (Some s) (Some (Some d)) i t = t) /\
    open_conns w' = drop_conn c (open_conns w).
Proof.
  intros Hj Hl Hn Hde Hst Hnul H Hd.
  assert (Hfn : field "name" kv = JStr s) by (unfold field; now rewrite Hn).
  assert (Hfd : field "description" kv = JStr d)
    by (unfold field; now rewrite Hde).
  assert (Hsn : supplied "name" kv = true) by (unfold supplied; now rewrite Hfn).
  assert (Hsd : supplied "description" kv = true)
    by (unfold supplied; now rewrite Hfd).
  assert (Hs : supplied "name" kv || supplied "description" kv = true)
    by now rewrite Hsn.
  rewrite (update_item_statement req kv i w Hj Hl Hs).
  pose proof (write_round_trip_cases RealDictCursor
                (spec_update_text (supplied "name" kv) (supplied "description" kv))
                (spec_update_values kv i) found_or_404 _ w
                found_or_404_returns) as Hc.
  rewrite H, spec_update_run, Hd in Hc by exact Hs.
  assert (Hpn : supplied_field "name" kv = Some (JStr s))
    by (unfold supplied_field; now rewrite Hsn, Hfn).
  assert (Hpd : supplied_field "description" kv = Some (JStr d))
    by (unfold supplied_field; now rewrite Hsd, Hfd).
  rewrite Hpn, Hpd in Hc. unfold bound_field, bound in Hc.
  destruct Hst as [Hsnul Hlen]. cbn [adapt] in Hc.
  rewrite Hsnul, Hnul in Hc. cbn [need_table] in Hc.
  rewrite (run_update_both_plain s d i t Hlen) in Hc.
  destruct Hc as (w' & Hc & Hd' & Ho & _).
  exists w'. split; [|split; [exact Hd'|split; [apply updated_table_absent|exact Ho]]].
  rewrite Hc. cbn [rs_rows].
  destruct (filter (has_id i) (rows t)) as [|r rest]; reflexivity.
Qed.

Lemma update_item_sets_both_fields_witness :
  let w := sample_world database_up (Some three_items) in
  let req := json_request [("name", JStr "plum"); ("description", JStr "blue")] in
  exists w',
    update_item req 2 w
    = (Ok (match filter (has_id 2) (rows three_items) with
           | r :: _ => mkResponse 200 (item_json (mkRow (id r) "plum" (Some "blue")))
           | [] => mkResponse 404 (error_body "Item not found")
           end), w') /\
    db w' = Some (updated_table (Some "plum") (Some (Some "blue")) 2 three_items) /\
    (filter (has_id 2) (rows three_items) = [] ->
     updated_table (Some "plum") (Some (Some "blue")) 2 three_items = three_items) /\
    open_conns w' = drop_conn 0%nat [].
Proof.
  refine (update_item_sets_both_fields
            (sample_world database_up (Some three_items)) 0%nat _ three_items
            (json_request [("name", JStr "plum"); ("description", JStr "blue")])
            [("name", JStr "plum"); ("description", JStr "blue")] 2
            "plum" "blue" eq_refl eq_refl eq_refl eq_refl (conj eq_refl _)
            eq_refl eq_refl eq_refl).
  repeat constructor.
Defined.

(** ** The listing and the order of storage *)

Lemma sorted_by_id_unique : forall l1 l2,
  StronglySorted id_le l1 -> StronglySorted id_le l2 ->
  Permutation l1 l2 -> NoDup (map id l1) -> l1 = l2.
Proof.
  induction l1 as [|a l1 IH]; intros l2 Hs1 Hs2 Hp Hnd.
  - apply Permutation_nil in Hp. now subst.
  - destruct l2 as [|b l2].
    { apply Permutation_sym, Permutation_nil in Hp. discriminate. }
    inversion Hs1 as [|? ? Hs1' Ha]; subst.
    inversion Hs2 as [|? ? Hs2' Hb]; subst.
    cbn [map] in Hnd. inversion Hnd as [|? ? Hnotin Hnd']; subst.
    assert (Hbin : In b (a :: l1)).
    { eapply Permutation_in; [apply Permutation_sym; exact Hp|now left]. }
    assert (Hain : In a (b :: l2)).
    { eapply Permutation_in; [exact Hp|now left]. }
    assert (Hab : a = b).
    { destruct Hbin as [Heq|Hbin]; [exact Heq|].
      destruct Hain as [Heq|Hain]; [now symmetry|].
      exfalso. apply Hnotin.
      rewrite Forall_forall in Ha, Hb.
      specialize (Ha b Hbin). specialize (Hb a Hain). unfold id_le in *.
      replace (id a) with (id b) by lia. now apply in_map. }
    subst b. f_equal. apply IH; try assumption.
    eapply Permutation_cons_inv. exact Hp.
Qed.

Lemma sorted_distinct_strict l :
  StronglySorted id_le l -> NoDup (map id l) -> StronglySorted id_lt l.
Proof.
  induction 1 as [|a l Hs IH Ha]; intros Hnd; [constructor|].
  cbn [map] in Hnd. inversion Hnd as [|? ? Hnotin Hnd']; subst.
  constructor; [now apply IH|].
  rewrite Forall_forall in *. intros b Hb. specialize (Ha b Hb).
  unfold id_le, id_lt in *.
  assert (id a <> id b); [|lia].
  intros E. apply Hnotin. rewrite E. now apply in_map.
Qed.

Lemma get_items_lists w c w1 t :
  get_db_connection default_retries w = (Ok c, w1) ->
  db w = Some t ->
  fst (get_items w)
  = Ok (mkResponse 200 (JArr (map item_json (order_by_id (rows t))))).
Proof.
  intros H Hd.
  pose proof (read_round_trip_cases RealDictCursor sql_select_all [] fetchall
                listed internal_error (fun x _ => jsonify x)
                (fun e _ => error_500 e) w
                listed_returns internal_error_returns) as Hg.
  rewrite H, Hd, run_select_all in Hg.
  destruct Hg as (w' & Hg & _). rewrite get_items_reads, Hg.
  cbn [fst]. unfold fetchall. cbn [cur_factory cur_rows rs_rows jsonify].
  now rewrite map_map.
Qed.

(** X18.  The answer of [GET /items] does not depend on the order in
    which the rows are stored: two tables that hold the same rows with
    distinct ids, in any two orders, are listed identically, and the ids
    in the listing increase strictly. *)
Theorem listing_ignores_storage_order (w w2 : World) (c c2 : Conn)
        (w1 w3 : World) (t t2 : Table) :
  get_db_connection default_retries w = (Ok c, w1) ->
  get_db_connection default_retries w2 = (Ok c2, w3) ->
  db w = Some t ->
  db w2 = Some t2 ->
  Permutation (rows t) (rows t2) ->
  NoDup (map id (rows t)) ->
  fst (get_items w) = fst (get_items w2) /\
  fst (get_items w)
  = Ok (mkResponse 200 (JArr (map item_json (order_by_id (rows t))))) /\
  StronglySorted id_lt (order_by_id (rows t)).
Proof.
  intros H H2 Hd Hd2 Hp Hnd.
  assert (Hnd' : NoDup (map id (order_by_id (rows t)))).
  { eapply Permutation_NoDup; [|exact Hnd].
    apply Permutation_map, order_by_id_perm. }
  rewrite (get_items_lists _ _ _ _ H Hd), (get_items_lists _ _ _ _ H2 Hd2).
  split; [|split; [reflexivity|]].
  - do 4 f_equal.
    apply sorted_by_id_unique;
      [apply order_by_id_sorted|apply order_by_id_sorted| |exact Hnd'].
    eapply perm_trans; [apply Permutation_sym, order_by_id_perm|].
    eapply perm_trans; [exact Hp|apply order_by_id_perm].
  - apply sorted_distinct_strict; [apply order_by_id_sorted|exact Hnd'].
Qed.

Lemma three_items_shuffled_perm :
  Permutation (rows three_items) (rows three_items_shuffled).
Proof.
  cbn. eapply perm_trans; [apply perm_skip, perm_swap|apply perm_swap].
Defined.

Lemma listing_ignores_storage_order_witness :
  let w := sample_world database_up (Some three_items) in
  let w2 := sample_world database_up (Some three_items_shuffled) in
  fst (get_items w) = fst (get_items w2) /\
  fst (get_items w)
  = Ok (mkResponse 200 (JArr (map item_json (order_by_id (rows three_items))))) /\
  StronglySorted id_lt (order_by_id (rows three_items)).
Proof.
  exact (listing_ignores_storage_order
           (sample_world database_up (Some three_items))
           (sample_world database_up (Some three_items_shuffled))
           0%nat 0%nat _ _ three_items three_items_shuffled
           eq_refl eq_refl eq_refl eq_refl three_items_shuffled_perm
           three_items_distinct).
Defined.

(** ** Invariants across the routes *)

Lemma write_round_trip_store_ok f stmt params finish g w :
  (forall x w0, finish x w0 = (Ok (g x), w0)) ->
  store_ok (db w) ->
  store_ok (db (snd (write_round_trip f stmt params finish w))).
Proof.
  intros Hfin Hok.
  pose proof (write_round_trip_cases f stmt params finish g w Hfin) as Hc.
  destruct (get_db_connection default_retries w) as [[c|e] w1] eqn:H.
  - destruct (acquired _ _ _ H) as [Hs _].
    assert (Hdb : db w1 = db w) by apply Hs.
    destruct (run (coerce w) stmt params (db w)) as [e|[d' rs]] eqn:Hrun.
    + destruct Hc as (w' & -> & Hd' & _). cbn [snd]. now rewrite Hd'.
    + destruct Hc as (w' & -> & Hd' & _). cbn [snd]. rewrite Hd'.
      eapply run_keeps_store_ok; eassumption.
  - rewrite Hc. cbn [snd]. destruct (not_acquired _ _ _ H) as [Hs _].
    assert (Hdb : db w1 = db w) by apply Hs. now rewrite Hdb.
Qed.

Lemma without_id_ok i t : ids_from_sequence t -> ids_from_sequence (without_id i t).
Proof.
  intros [Hpos Hids]. split; [exact Hpos|].
  cbn [without_id rows last_value]. intros r Hr.
  apply filter_In in Hr. now apply Hids.
Qed.

Lemma empty_table_ok : ids_from_sequence empty_table.
Proof. split; [reflexivity|intros r []]. Qed.

(** X19.  The store keeps its invariant through every route and through
    [init_db], on every way out: if no id of the table is beyond the
    last value of its sequence before the call, none is after it.  So
    the id the next [POST /items] takes from the sequence is always
    free. *)
Theorem routes_keep_the_store_invariant (w : World) (req : Request) (i : Z) :
  store_ok (db w) ->
  store_ok (db (snd (init_db w))) /\
  store_ok (db (snd (index w))) /\
  store_ok (db (snd (health w))) /\
  store_ok (db (snd (get_items w))) /\
  store_ok (db (snd (create_item req w))) /\
  store_ok (db (snd (get_item i w))) /\
  store_ok (db (snd (update_item req i w))) /\
  store_ok (db (snd (delete_item i w))) /\
  store_ok (db (snd (reset_database w))).
Proof.
  intros Hok.
  assert (Hread : forall f stmt params fetch finish handler g ge,
    (forall x w0, finish x w0 = (Ok (g x (hostname w0)), w0)) ->
    (forall e w0, handler e w0 = (Ok (ge e (hostname w0)), w0)) ->
    store_ok (db (snd (read_round_trip f stmt params fetch finish handler w)))).
  { intros. erewrite read_round_trip_db; eassumption. }
  split.
  { pose proof (init_db_cases w) as Hc.
    destruct (get_db_connection default_retries w) as [[c|e] w1] eqn:H.
    - destruct Hc as (w' & -> & Hd' & _). cbn [snd]. rewrite Hd'.
      destruct (db w); [exact Hok|apply empty_table_ok].
    - rewrite Hc. cbn [snd put_line db].
      destruct (not_acquired _ _ _ H) as [Hs _].
      assert (Hdb : db w1 = db w) by apply Hs. now rewrite Hdb. }
  split; [exact Hok|].
  split.
  { rewrite health_reads.
    apply (Hread _ _ _ _ _ _ (fun _ h => jsonify (healthy_body h))
             (fun e h => mkResponse 500 (unhealthy_body e h))
             report_healthy_returns report_unhealthy_returns). }
  split.
  { rewrite get_items_reads.
    apply (Hread _ _ _ _ _ _ (fun x _ => jsonify x) (fun e _ => error_500 e)
             listed_returns internal_error_returns). }
  split.
  { destruct (create_item_dispatch req w) as [(resp & -> & _)|(nm & de & ->)];
      [exact Hok|].
    apply (write_round_trip_store_ok _ _ _ _
             (fun x => with_status (jsonify x) 201)); [reflexivity|exact Hok]. }
  split.
  { rewrite get_item_reads.
    apply (Hread _ _ _ _ _ _ (fun x _ => found_or_404_answer x)
             (fun e _ => error_500 e) found_or_404_returns
             internal_error_returns). }
  split.
  { destruct (update_item_dispatch req i w) as [(resp & -> & _)|(kv & _ & ->)];
      [exact Hok|].
    apply (write_round_trip_store_ok _ _ _ _ found_or_404_answer);
      [apply found_or_404_returns|exact Hok]. }
  split.
  { pose proof (delete_item_cases i w) as Hc.
    destruct (get_db_connection default_retries w) as [[c|e] w1] eqn:H.
    - destruct (acquired _ _ _ H) as [Hs _].
      assert (Hdb : db w1 = db w) by apply Hs.
      destruct (db w) as [t|] eqn:Hd.
      + destruct Hc as (w' & -> & Hd' & _). cbn [snd]. rewrite Hd'.
        cbn [store_ok]. now apply without_id_ok.
      + destruct Hc as (w' & -> & Hd' & _). cbn [snd]. now rewrite Hd'.
    - rewrite Hc. cbn [snd]. destruct (not_acquired _ _ _ H) as [Hs _].
      assert (Hdb : db w1 = db w) by apply Hs. now rewrite Hdb. }
  pose proof (reset_database_cases w) as Hc.
  destruct (get_db_connection default_retries w) as [[c|e] w1] eqn:H.
  - destruct Hc as (w' & -> & Hd' & _). cbn [snd]. rewrite Hd'.
    apply empty_table_ok.
  - rewrite Hc. cbn [snd]. destruct (not_acquired _ _ _ H) as [Hs _].
    assert (Hdb : db w1 = db w) by apply Hs. now rewrite Hdb.
Qed.

Lemma routes_keep_the_store_invariant_witness :
  let w := sample_world database_up (Some three_items) in
  let req := json_request [("name", JStr "kiwi")] in
  store_ok (db (snd (init_db w))) /\
  store_ok (db (snd (index w))) /\
  store_ok (db (snd (health w))) /\
  store_ok (db (snd (get_items w))) /\
  store_ok (db (snd (create_item req w))) /\
  store_ok (db (snd (get_item 2 w))) /\
  store_ok (db (snd (update_item req 2 w))) /\
  store_ok (db (snd (delete_item 2 w))) /\
  store_ok (db (snd (reset_database w))).
Proof.
  exact (routes_keep_the_store_invariant
           (sample_world database_up (Some three_items))
           (json_request [("name", JStr "kiwi")]) 2 three_items_from_sequence).
Defined.

Lemma drop_conn_fresh w c :
  conns_ok w -> (attempts w <= c)%nat ->
  drop_conn c (open_conns w) = open_conns w.
Proof.
  unfold conns_ok, drop_conn. intros Hok Hc.
  generalize dependent (open_conns w). induction l as [|[c' d] l IH]; intros Hok.
  - reflexivity.
  - cbn [filter fst].
    assert (Hlt : (c' < attempts w)%nat) by (apply (Hok c' d); now left).
    destruct (Nat.eqb_spec c c') as [->|_]; [lia|]. cbn [negb].
    f_equal. apply IH. intros c0 d0 H0. apply (Hok c0 d0). now right.
Qed.

Lemma read_round_trip_no_leak f stmt params fetch finish handler g ge w :
  (forall x w0, finish x w0 = (Ok (g x (hostname w0)), w0)) ->
  (forall e w0, handler e w0 = (Ok (ge e (hostname w0)), w0)) ->
  (forall e h, status (ge e h) = 500) ->
  conns_ok w ->
  leaves_no_connection w (read_round_trip f stmt params fetch finish handler w).
Proof.
  intros Hfin Hh Hge Hok resp Hr Hst.
  pose proof (read_round_trip_cases f stmt params fetch finish handler g ge w
                Hfin Hh) as Hc.
  destruct (get_db_connection default_retries w) as [[c|e] w1] eqn:H.
  - destruct (run (coerce w) stmt params (db w)) as [e|[d' rs]].
    + destruct Hc as (w' & Hc & _). rewrite Hc in Hr. injection Hr as <-.
      now rewrite Hge in Hst.
    + destruct Hc as (w' & Hc & _ & Ho & _). rewrite Hc. cbn [snd].
      rewrite Ho. apply drop_conn_fresh; [exact Hok|].
      eapply acquired_fresh; exact H.
  - rewrite Hc in Hr. injection Hr as <-. now rewrite Hge in Hst.
Qed.

Lemma write_round_trip_no_leak f stmt params finish g w :
  (forall x w0, finish x w0 = (Ok (g x), w0)) ->
  conns_ok w ->
  leaves_no_connection w (write_round_trip f stmt params finish w).
Proof.
  intros Hfin Hok resp Hr Hst.
  pose proof (write_round_trip_cases f stmt params finish g w Hfin) as Hc.
  destruct (get_db_connection default_retries w) as [[c|e] w1] eqn:H.
  - destruct (run (coerce w) stmt params (db w)) as [e|[d' rs]].
    + destruct Hc as (w' & Hc & _). rewrite Hc in Hr. injection Hr as <-.
      now contradiction Hst.
    + destruct Hc as (w' & Hc & _ & Ho & _). rewrite Hc. cbn [snd].
      rewrite Ho. apply drop_conn_fresh; [exact Hok|].
      eapply acquired_fresh; exact H.
  - rewrite Hc in Hr. injection Hr as <-. now contradiction Hst.
Qed.

(** X20.  A route that answers anything but 500 leaves no connection
    behind: when every open connection was opened by an earlier attempt,
    the connections open after the handler are those open before it.
    This holds for every route.  It is the path on which the handler
    itself calls [close]; what becomes of the connection on a 500 is
    the matter of the lemma after this one. *)
Theorem routes_close_unless_500 (w : World) (req : Request) (i : Z) :
  conns_ok w ->
  leaves_no_connection w (index w) /\
  leaves_no_connection w (health w) /\
  leaves_no_connection w (get_items w) /\
  leaves_no_connection w (create_item req w) /\
  leaves_no_connection w (get_item i w) /\
  leaves_no_connection w (update_item req i w) /\
  leaves_no_connection w (delete_item i w) /\
  leaves_no_connection w (reset_database w).
Proof.
  intros Hok.
  split; [intros resp _ _; reflexivity|].
  split.
  { rewrite health_reads.
    apply (read_round_trip_no_leak _ _ _ _ _ _
             (fun _ h => jsonify (healthy_body h))
             (fun e h => mkResponse 500 (unhealthy_body e h)) _
             report_healthy_returns report_unhealthy_returns);
      [reflexivity|exact Hok]. }
  split.
  { rewrite get_items_reads.
    apply (read_round_trip_no_leak _ _ _ _ _ _ (fun x _ => jsonify x)
             (fun e _ => error_500 e) _ listed_returns internal_error_returns);
      [reflexivity|exact Hok]. }
  split.
  { destruct (create_item_dispatch req w) as [(resp & -> & _)|(nm & de & ->)];
      [intros r _ _; reflexivity|].
    apply (write_round_trip_no_leak _ _ _ _
             (fun x => with_status (jsonify x) 201)); [reflexivity|exact Hok]. }
  split.
  { rewrite get_item_reads.
    apply (read_round_trip_no_leak _ _ _ _ _ _
             (fun x _ => found_or_404_answer x) (fun e _ => error_500 e) _
             found_or_404_returns internal_error_returns);
      [reflexivity|exact Hok]. }
  split.
  { destruct (update_item_dispatch req i w) as [(resp & -> & _)|(kv & _ & ->)];
      [intros r _ _; reflexivity|].
    apply (write_round_trip_no_leak _ _ _ _ found_or_404_answer);
      [apply found_or_404_returns|exact Hok]. }
  split.
  { intros resp Hr Hst. pose proof (delete_item_cases i w) as Hc.
    destruct (get_db_connection default_retries w) as [[c|e] w1] eqn:H.
    - destruct (db w) as [t|].
      + destruct Hc as (w' & Hc & _ & Ho & _). rewrite Hc. cbn [snd].
        rewrite Ho. apply drop_conn_fresh; [exact Hok|].
        eapply acquired_fresh; exact H.
      + destruct Hc as (w' & Hc & _). rewrite Hc in Hr. injection Hr as <-.
        now contradiction Hst.
    - rewrite Hc in Hr. injection Hr as <-. now contradiction Hst. }
  intros resp Hr Hst. pose proof (reset_database_cases w) as Hc.
  destruct (get_db_connection default_retries w) as [[c|e] w1] eqn:H.
  - destruct Hc as (w' & Hc & _ & Ho & _). rewrite Hc. cbn [snd].
    rewrite Ho. apply drop_conn_fresh; [exact Hok|].
    eapply acquired_fresh; exact H.
  - rewrite Hc in Hr. injection Hr as <-. now contradiction Hst.
Qed.

Lemma sample_conns_ok n d : conns_ok (sample_world n d).
Proof. intros c x []. Defined.

Lemma routes_close_unless_500_witness :
  let w := sample_world database_up (Some three_items) in
  let req := json_request [("name", JStr "kiwi")] in
  leaves_no_connection w (index w) /\
  leaves_no_connection w (health w) /\
  leaves_no_connection w (get_items w) /\
  leaves_no_connection w (create_item req w) /\
  leaves_no_connection w (get_item 2 w) /\
  leaves_no_connection w (update_item req 2 w) /\
  leaves_no_connection w (delete_item 2 w) /\
  leaves_no_connection w (reset_database w).
Proof.
  exact (routes_close_unless_500
           (sample_world database_up (Some three_items))
           (json_request [("name", JStr "kiwi")]) 2
           (sample_conns_ok database_up (Some three_items))).
Defined.

(** On every path, the 500s included, the connections open after a
    handler are those open before it: where the handler does not call
    [close], the connection object is released with the handler's local
    variables and its destructor closes it. *)
Lemma read_round_trip_conns f stmt params fetch finish handler g ge w :
  (forall x w0, finish x w0 = (Ok (g x (hostname w0)), w0)) ->
  (forall e w0, handler e w0 = (Ok (ge e (hostname w0)), w0)) ->
  conns_ok w ->
  open_conns (snd (read_round_trip f stmt params fetch finish handler w))
  = open_conns w.
Proof.
  intros Hfin Hh Hok.
  pose proof (read_round_trip_cases f stmt params fetch finish handler g ge w
                Hfin Hh) as Hc.
  destruct (get_db_connection default_retries w) as [[c|e] w1] eqn:H.
  - pose proof (acquired_fresh _ _ _ H) as Hf.
    destruct (run (coerce w) stmt params (db w)) as [e|[d' rs]];
      destruct Hc as (w' & Hc & _ & Ho & _); rewrite Hc; cbn [snd];
      rewrite Ho; now apply drop_conn_fresh.
  - rewrite Hc. cbn [snd]. apply (not_acquired _ _ _ H).
Qed.

Lemma write_round_trip_conns f stmt params finish g w :
  (forall x w0, finish x w0 = (Ok (g x), w0)) ->
  conns_ok w ->
  open_conns (snd (write_round_trip f stmt params finish w)) = open_conns w.
Proof.
  intros Hfin Hok.
  pose proof (write_round_trip_cases f stmt params finish g w Hfin) as Hc.
  destruct (get_db_connection default_retries w) as [[c|e] w1] eqn:H.
  - pose proof (acquired_fresh _ _ _ H) as Hf.
    destruct (run (coerce w) stmt params (db w)) as [e|[d' rs]];
      destruct Hc as (w' & Hc & _ & Ho & _); rewrite Hc; cbn [snd];
      rewrite Ho; now apply drop_conn_fresh.
  - rewrite Hc. cbn [snd]. apply (not_acquired _ _ _ H).
Qed.

Lemma routes_release_their_connection (w : World) (req : Request) (i : Z) :
  conns_ok w ->
  open_conns (snd (index w)) = open_conns w /\
  open_conns (snd (health w)) = open_conns w /\
  open_conns (snd (get_items w)) = open_conns w /\
  open_conns (snd (create_item req w)) = open_conns w /\
  open_conns (snd (get_item i w)) = open_conns w /\
  open_conns (snd (update_item req i w)) = open_conns w /\
  open_conns (snd (delete_item i w)) = open_conns w /\
  open_conns (snd (reset_database w)) = open_conns w.
Proof.
  intros Hok.
  split; [reflexivity|].
  split.
  { rewrite health_reads.
    apply (read_round_trip_conns _ _ _ _ _ _
             (fun _ h => jsonify (healthy_body h))
             (fun e h => mkResponse 500 (unhealthy_body e h)) _
             report_healthy_returns report_unhealthy_returns Hok). }
  split.
  { rewrite get_items_reads.
    apply (read_round_trip_conns _ _ _ _ _ _ (fun x _ => jsonify x)
             (fun e _ => error_500 e) _ listed_returns internal_error_returns
             Hok). }
  split.
  { destruct (create_item_dispatch req w) as [(resp & -> & _)|(nm & de & ->)];
      [reflexivity|].
    apply (write_round_trip_conns _ _ _ _
             (fun x => with_status (jsonify x) 201)); [reflexivity|exact Hok]. }
  split.
  { rewrite get_item_reads.
    apply (read_round_trip_conns _ _ _ _ _ _
             (fun x _ => found_or_404_answer x) (fun e _ => error_500 e) _
             found_or_404_returns internal_error_returns Hok). }
  split.
  { destruct (update_item_dispatch req i w) as [(resp & -> & _)|(kv & _ & ->)];
      [reflexivity|].
    apply (write_round_trip_conns _ _ _ _ found_or_404_answer);
      [apply found_or_404_returns|exact Hok]. }
  split.
  { pose proof (delete_item_cases i w) as Hc.
    destruct (get_db_connection default_retries w) as [[c|e] w1] eqn:H.
    - pose proof (acquired_fresh _ _ _ H) as Hf.
      destruct (db w) as [t|];
        destruct Hc as (w' & Hc & _ & Ho & _); rewrite Hc; cbn [snd];
        rewrite Ho; now apply drop_conn_fresh.
    - rewrite Hc. cbn [snd]. apply (not_acquired _ _ _ H). }
  pose proof (reset_database_cases w) as Hc.
  destruct (get_db_connection default_retries w) as [[c|e] w1] eqn:H.
  - pose proof (acquired_fresh _ _ _ H) as Hf.
    destruct Hc as (w' & Hc & _ & Ho & _). rewrite Hc. cbn [snd].
    rewrite Ho. now apply drop_conn_fresh.
  - rewrite Hc. cbn [snd]. apply (not_acquired _ _ _ H).
Qed.


(** ** When the table is missing *)

Lemma run_insert_missing co nm de :
  run co sql_insert [nm; de] None = inl (missing_table_error co [nm; de]).
Proof.
  rewrite run_insert_eq. unfold bound, missing_table_error.
  cbn [binding_error].
  destruct (adapt co nm); [reflexivity|].
  destruct (adapt co de); reflexivity.
Qed.

Lemma run_update_missing co kv i :
  supplied "name" kv || supplied "description" kv = true ->
  run co (spec_update_text (supplied "name" kv) (supplied "description" kv))
      (spec_update_values kv i) None
  = inl (missing_table_error co (supplied_values kv)).
Proof.
  intros Hs. rewrite spec_update_run by exact Hs.
  unfold supplied_field, supplied_values, bound_field, bound,
    missing_table_error.
  destruct (supplied "name" kv), (supplied "description" kv);
    cbn [app binding_error];
    repeat match goal with
           | |- context [adapt co ?v] => destruct (adapt co v)
           end; reflexivity.
Qed.

(** X21.  When the database answers but the [items] table does not
    exist (as after a start-up during which [init_db] failed), the
    routes that read or write items answer 500 and the table stays
    missing; nothing creates it on the way.  The text is that of the
    store's error for the missing table; for [POST /items] and
    [PUT /items/<id>], whose parameters the driver binds before
    anything is sent, it is the driver's error if a parameter cannot be
    bound.  [GET /health] still answers 200, and [POST /reset] is the
    route that brings the table back. *)
Theorem missing_table_answers_500 (w : World) (c : Conn) (w1 : World) (i : Z) :
  get_db_connection default_retries w = (Ok c, w1) ->
  db w = None ->
  let e := error_500 (store_exn w UndefinedTable) in
  (fst (get_items w) = Ok e /\ db (snd (get_items w)) = None) /\
  (fst (get_item i w) = Ok e /\ db (snd (get_item i w)) = None) /\
  (fst (delete_item i w) = Ok e /\ db (snd (delete_item i w)) = None) /\
  (forall req kv nm,
     is_json req = true -> json_loads req = Some (JObj kv) ->
     assoc "name" kv = Some nm -> truthy nm = true ->
     fst (create_item req w)
     = Ok (error_500
             (store_exn w
                (missing_table_error (coerce w)
                   [nm; match assoc "description" kv with
                        | Some v => v
                        | None => JStr ""
                        end]))) /\
     db (snd (create_item req w)) = None) /\
  (forall req kv,
     is_json req = true -> json_loads req = Some (JObj kv) ->
     supplied "name" kv || supplied "description" kv = true ->
     fst (update_item req i w)
     = Ok (error_500
             (store_exn w (missing_table_error (coerce w) (supplied_values kv))))
     /\ db (snd (update_item req i w)) = None) /\
  status_of (health w) = Some 200 /\
  db (snd (reset_database w)) = Some empty_table.
Proof.
  intros H Hd e.
  split.
  { pose proof (read_round_trip_cases RealDictCursor sql_select_all [] fetchall
                  listed internal_error (fun x _ => jsonify x)
                  (fun e _ => error_500 e) w
                  listed_returns internal_error_returns) as Hc.
    rewrite H, Hd, run_select_all_undefined in Hc.
    destruct Hc as (w' & Hc & Hd' & _).
    rewrite get_items_reads, Hc. split; [reflexivity|exact Hd']. }
  split.
  { pose proof (read_round_trip_cases RealDictCursor sql_select_by_id [JInt i]
                  fetchone found_or_404 internal_error
                  (fun x _ => found_or_404_answer x)
                  (fun e _ => error_500 e) w
                  found_or_404_returns internal_error_returns) as Hc.
    rewrite H, Hd in Hc.
    change (run (coerce w) sql_select_by_id [JInt i] None)
      with (@inl db_error (DB * ResultSet) UndefinedTable) in Hc.
    destruct Hc as (w' & Hc & Hd' & _).
    rewrite get_item_reads, Hc. split; [reflexivity|exact Hd']. }
  split.
  { pose proof (delete_item_cases i w) as Hc. rewrite H, Hd in Hc.
    destruct Hc as (w' & Hc & Hd' & _).
    rewrite Hc. split; [reflexivity|exact Hd']. }
  split.
  { intros req kv nm Hj Hl Hn Ht.
    rewrite (create_item_named _ _ _ _ Hj Hl Hn Ht).
    pose proof (write_round_trip_cases RealDictCursor sql_insert
                  [nm; match assoc "description" kv with
                       | Some v => v
                       | None => JStr ""
                       end]
                  created (fun x => with_status (jsonify x) 201) w
                  (fun _ _ => eq_refl)) as Hc.
    rewrite H, Hd, run_insert_missing in Hc.
    destruct Hc as (w' & Hc & Hd' & _).
    rewrite Hc. split; [reflexivity|exact Hd']. }
  split.
  { intros req kv Hj Hl Hsup.
    rewrite (update_item_statement req kv i w Hj Hl Hsup).
    pose proof (write_round_trip_cases RealDictCursor
                  (spec_update_text (supplied "name" kv) (supplied "description" kv))
                  (spec_update_values kv i) found_or_404 _ w
                  found_or_404_returns) as Hc.
    rewrite H, Hd, run_update_missing in Hc by exact Hsup.
    destruct Hc as (w' & Hc & Hd' & _).
    rewrite Hc. split; [reflexivity|exact Hd']. }
  split.
  { pose proof (health_cases w) as Hh. rewrite H in Hh.
    destruct Hh as (w' & Hh & _). unfold status_of. now rewrite Hh. }
  pose proof (reset_database_cases w) as Hc. rewrite H in Hc.
  destruct Hc as (w' & -> & Hd' & _). exact Hd'.
Qed.

Lemma missing_table_answers_500_witness :
  let w := sample_world database_up None in
  let e := error_500 (store_exn w UndefinedTable) in
  (fst (get_items w) = Ok e /\ db (snd (get_items w)) = None) /\
  (fst (get_item 2 w) = Ok e /\ db (snd (get_item 2 w)) = None) /\
  (fst (delete_item 2 w) = Ok e /\ db (snd (delete_item 2 w)) = None) /\
  (forall req kv nm,
     is_json req = true -> json_loads req = Some (JObj kv) ->
     assoc "name" kv = Some nm -> truthy nm = true ->
     fst (create_item req w)
     = Ok (error_500
             (store_exn w
                (missing_table_error (coerce w)
                   [nm; match assoc "description" kv with
                        | Some v => v
                        | None => JStr ""
                        end]))) /\
     db (snd (create_item req w)) = None) /\
  (forall req kv,
     is_json req = true -> json_loads req = Some (JObj kv) ->
     supplied "name" kv || supplied "description" kv = true ->
     fst (update_item req 2 w)
     = Ok (error_500
             (store_exn w (missing_table_error (coerce w) (supplied_values kv))))
     /\ db (snd (update_item req 2 w)) = None) /\
  status_of (health w) = Some 200 /\
  db (snd (reset_database w)) = Some empty_table.
Proof.
  exact (missing_table_answers_500 (sample_world database_up None) 0%nat _ 2
           eq_refl eq_refl).
Defined.

(** The two errors apart, on the sample world: a name the driver can
    bind meets the missing table, a name with a NUL does not get that
    far. *)
Example missing_table_or_binding_error :
  let w := sample_world database_up None in
  missing_table_error (coerce w) [JStr "kiwi"; JStr ""] = UndefinedTable /\
  missing_table_error (coerce w) [JStr (String zero "kiwi"); JStr ""]
  = NulInString /\
  missing_table_error (coerce w) [JObj []; JStr ""] = CannotAdapt.
Proof. repeat split. Qed.
